(** * Violation ledger, escalation policy, store and enforcement pipeline

    A shallow embedding of [src/bot.py] (the Discord image-moderation bot)
    and of the interface of [src/run_time.py] (the classifier), with the
    properties of the specification stated over it.

    Conventions.
    - Python [int] is [Z]; [str(n)] on an [int] is stdpp's decimal [pretty].
    - A Python [dict] with string keys is a [gmap string _]; a key that may
      be missing from [self.data] itself is an [option] field.
    - [timedelta] is a number of seconds.
    - A function that ends without [return] yields Python's [None], which
      is Rocq's [None] in an [option] result.
    - Scores are rationals: [analyze_image] returns a probability rounded to
      three decimals, or [-1.0]. *)

From Stdlib Require Import ZArith QArith Lia List.
From stdpp Require Import base gmap strings pretty list fin_maps sorting.

Set Warnings "-register-all".
Open Scope Z_scope.

(** ** Python values used on both sides of the store *)

(** What [json.loads] can return, and what [json.dumps] accepts. *)
Inductive json : Type :=
| JNull
| JBool (b : bool)
| JInt (z : Z)
| JFloat (q : Q)
| JStr (s : string)
| JArr (l : list json)
| JObj (fields : list (string * json)).

(** [str(n)] for an [int]. *)
Definition str (n : Z) : string := pretty n.

(** Truthiness of an optional [int] argument: [None] and [0] are falsy. *)
Definition truthy (x : option Z) : bool :=
  match x with
  | None => false
  | Some n => negb (n =? 0)
  end.

(** ** EscalationSystem *)

Module EscalationSystem.

Definition timedelta := Z.

Definition timedelta_minutes (m : Z) : timedelta := 60 * m.
Definition timedelta_hours (h : Z) : timedelta := 3600 * h.

Definition TIMEOUT_LEVELS : gmap Z timedelta :=
  <[1 := timedelta_minutes 10]>
    (<[2 := timedelta_hours 1]>
       (<[3 := timedelta_hours 3]>
          (<[4 := timedelta_hours 6]> ∅))).

(** [cls.TIMEOUT_LEVELS.get(min(warning_count, 4), cls.TIMEOUT_LEVELS[4])].
    The default is evaluated first and would raise [KeyError] (here
    [None]) if the table had no entry 4. *)
Definition calculate_timeout (warning_count : Z) : option timedelta :=
  match TIMEOUT_LEVELS !! 4 with
  | None => None
  | Some dflt => Some (default dflt (TIMEOUT_LEVELS !! Z.min warning_count 4))
  end.

(** [format_duration]: hours and minutes, minutes only under one hour. *)
Definition format_duration (duration : timedelta) : string :=
  let total_seconds := duration in
  let hours := total_seconds / 3600 in
  let remainder := total_seconds mod 3600 in
  let minutes := remainder / 60 in
  if 0 <? hours
  then (pretty hours +:+ "h " +:+ pretty minutes +:+ "m")%string
  else (pretty minutes +:+ "m")%string.

End EscalationSystem.

Definition MAX_TIMEOUT_DURATION : EscalationSystem.timedelta :=
  EscalationSystem.timedelta_hours 6.

(** ** ModerationData: the in-memory ledger *)

Module ModerationData.

(** [self.data], with the value types that the comments of [__init__]
    give to its three keys. [enabled_servers] and [user_warnings] are
    optional because the methods test for the key before each access. *)
Record Data : Type := mkData {
  enabled_servers : option (gmap string bool);
  user_warnings : option (gmap string (gmap string Z));
  moderation_log : list json
}.

(** The dictionary built by [__init__]. *)
Definition init : Data :=
  {| enabled_servers := Some ∅;
     user_warnings := Some ∅;
     moderation_log := [] |}.

Definition set_user_warnings (w : gmap string (gmap string Z)) (d : Data) : Data :=
  {| enabled_servers := enabled_servers d;
     user_warnings := Some w;
     moderation_log := moderation_log d |}.

Definition set_enabled_servers (e : gmap string bool) (d : Data) : Data :=
  {| enabled_servers := Some e;
     user_warnings := user_warnings d;
     moderation_log := moderation_log d |}.

(** [self.data['user_warnings']] after the guard
    [if 'user_warnings' not in self.data: self.data['user_warnings'] = {}]. *)
Definition warnings_of (d : Data) : gmap string (gmap string Z) :=
  default ∅ (user_warnings d).

Definition servers_of (d : Data) : gmap string bool :=
  default ∅ (enabled_servers d).

Definition is_enabled (guild_id : Z) (d : Data) : Data * bool :=
  let e := servers_of d in
  (set_enabled_servers e d, default false (e !! str guild_id)).

Definition set_enabled (guild_id : Z) (enabled : bool) (d : Data) : Data :=
  set_enabled_servers (<[str guild_id := enabled]> (servers_of d)) d.

(** The count that [get_user_warnings] returns. *)
Definition warning_count (guild_id user_id : Z) (d : Data) : Z :=
  let server_warnings := default ∅ (warnings_of d !! str guild_id) in
  default 0 (server_warnings !! str user_id).

(** [get_user_warnings]: the guard may add the missing key, so the call
    returns the dictionary too. *)
Definition get_user_warnings (guild_id user_id : Z) (d : Data) : Data * Z :=
  (set_user_warnings (warnings_of d) d, warning_count guild_id user_id d).

(** [increment_warning]. The body has no [return]: the call yields
    [None]. *)
Definition increment_warning (guild_id user_id : Z) (d : Data)
  : Data * option Z :=
  let w := warnings_of d in
  let guild_id_str := str guild_id in
  let user_id_str := str user_id in
  let w1 :=
    match w !! guild_id_str with
    | None => <[guild_id_str := ∅]> w
    | Some _ => w
    end in
  let '(d1, count) := get_user_warnings guild_id user_id (set_user_warnings w1 d) in
  let w2 := warnings_of d1 in
  let server := default ∅ (w2 !! guild_id_str) in
  (set_user_warnings (<[guild_id_str := <[user_id_str := count + 1]> server]> w2) d1,
   None).

(** [reset_warnings(guild_id=None, user_id=None)]; returns [None]. *)
Definition reset_warnings (guild_id user_id : option Z) (d : Data) : Data :=
  match user_warnings d with
  | None => set_user_warnings ∅ d
  | Some w =>
      if truthy guild_id && truthy user_id then
        let guild_id_str := str (default 0 guild_id) in
        let user_id_str := str (default 0 user_id) in
        match w !! guild_id_str with
        | Some server =>
            match server !! user_id_str with
            | Some _ =>
                set_user_warnings (<[guild_id_str := delete user_id_str server]> w) d
            | None => d
            end
        | None => d
        end
      else if truthy guild_id then
        let guild_id_str := str (default 0 guild_id) in
        match w !! guild_id_str with
        | Some _ => set_user_warnings (<[guild_id_str := ∅]> w) d
        | None => d
        end
      else set_user_warnings ∅ d
  end.

(** The entry of the (community, member) pair in the nested dictionary,
    [None] when the pair has none. *)
Definition stored_count (guild_id user_id : Z) (d : Data) : option Z :=
  match warnings_of d !! str guild_id with
  | Some server => server !! str user_id
  | None => None
  end.

(** [n] calls of [increment_warning] one after the other. *)
Fixpoint increment_n (n : nat) (guild_id user_id : Z) (d : Data) : Data :=
  match n with
  | O => d
  | S n' => increment_n n' guild_id user_id (increment_warning guild_id user_id d).1
  end.

(** A ledger with one warned member in each of two communities: member
    7 of community 5 has two warnings, member 8 of community 9 has one. *)
Definition two_communities : Data :=
  (increment_warning 5 7 (increment_warning 5 7 (increment_warning 9 8 init).1).1).1.

End ModerationData.

(** ** The backing file and [load_data] / [save_data] *)

Module Store.

(** The backing file as [json.loads] sees it: text that it rejects, or
    text that it parses to the value [j]. *)
Inductive file_content : Type :=
| Garbage
| Doc (j : json).

(** How the operating system answers an attempt to write the file:
    the write goes through; [open(..., 'w')] raises and the file is
    untouched; or the file is opened (and truncated) and writing
    raises, leaving [residue] behind. *)
Inductive write_result : Type :=
| WriteOk
| OpenFails
| WriteFails (residue : file_content).

Inductive level : Type := INFO | WARNING | ERROR.

(** A call of [logger]; the interpolated exception or member is left out
    of the text. *)
Record log_line : Type := mkLog { lvl : level; text : string }.

(** [self.data] as [json.dumps] and [json.loads] see it: a dictionary
    from section names to JSON values. *)
Definition pydict := list (string * json).

(** [dict.get(key, default)]. The object that [json.loads] returns has
    no duplicate keys. *)
Fixpoint dict_get (key : string) (dflt : json) (fields : pydict) : json :=
  match fields with
  | [] => dflt
  | (k, v) :: rest => if String.eqb k key then v else dict_get key dflt rest
  end.

Fixpoint dict_has (key : string) (fields : pydict) : bool :=
  match fields with
  | [] => false
  | (k, _) :: rest => String.eqb k key || dict_has key rest
  end.

(** The dictionary literal of [__init__] and of the [except] branch. *)
Definition default_dict : pydict :=
  [("enabled_servers", JObj []); ("user_warnings", JObj []);
   ("moderation_log", JArr [])]%string.

(** [save_data]: the new file, the lines logged and the value returned
    to the caller, which is [None] on every path. *)
Definition save_data (w : write_result) (data : pydict)
           (file : option file_content)
  : option file_content * list log_line * option bool :=
  match w with
  | WriteOk => (Some (Doc (JObj data)), [], None)
  | OpenFails => (file, [mkLog ERROR "Error saving data"], None)
  | WriteFails residue => (Some residue, [mkLog ERROR "Error saving data"], None)
  end.

(** [load_data] called on an object whose dictionary is [data]. Reading
    raises when the file cannot be opened ([read_ok = false]), when
    [json.loads] rejects its text, and when [loaded_data] has no [get]
    method because it is not a JSON object. *)
Definition load_data (read_ok : bool) (w : write_result) (data : pydict)
           (file : option file_content)
  : pydict * option file_content * list log_line :=
  let fallback :=
    let '(file', lines, _) := save_data w default_dict file in
    (default_dict, file', mkLog ERROR "Error loading data" :: lines) in
  match file with
  | Some content =>
      if read_ok then
        match content with
        | Doc (JObj loaded_data) =>
            ([("enabled_servers", dict_get "enabled_servers" (JObj []) loaded_data);
              ("user_warnings", dict_get "user_warnings" (JObj []) loaded_data);
              ("moderation_log", dict_get "moderation_log" (JArr []) loaded_data)]%string,
             file, [mkLog INFO "Moderation data loaded successfully"])
        | _ => fallback
        end
      else fallback
  | None =>
      let '(file', lines, _) := save_data w data file in
      (data, file', lines ++ [mkLog INFO "Created new moderation data file"])
  end.

(** The value types that the comments of [__init__] give to the three
    sections: [{server_id: True/False}], [{server_id: {user_id: count}}]
    and a list. *)
Definition is_bool (j : json) : bool :=
  match j with JBool _ => true | _ => false end.

Definition is_int (j : json) : bool :=
  match j with JInt _ => true | _ => false end.

Definition is_obj_of (p : json -> bool) (j : json) : bool :=
  match j with
  | JObj fields => forallb (fun kv => p kv.2) fields
  | _ => false
  end.

Definition is_arr (j : json) : bool :=
  match j with JArr _ => true | _ => false end.

Definition has_sections (data : pydict) : bool :=
  dict_has "enabled_servers" data && dict_has "user_warnings" data
  && dict_has "moderation_log" data.

Definition well_typed (data : pydict) : bool :=
  has_sections data
  && is_obj_of is_bool (dict_get "enabled_servers" JNull data)
  && is_obj_of (is_obj_of is_int) (dict_get "user_warnings" JNull data)
  && is_arr (dict_get "moderation_log" JNull data).

(** What [json.dumps] receives when the in-memory ledger is the typed
    record of [ModerationData]. The keys of an object come in the order in
    which the map enumerates them; nothing below depends on that order. *)
Definition dump_servers (e : gmap string bool) : json :=
  JObj ((fun kv => (kv.1, JBool kv.2)) <$> map_to_list e).

Definition dump_counts (c : gmap string Z) : json :=
  JObj ((fun kv => (kv.1, JInt kv.2)) <$> map_to_list c).

Definition dump_warnings (w : gmap string (gmap string Z)) : json :=
  JObj ((fun kv => (kv.1, dump_counts kv.2)) <$> map_to_list w).

Definition to_dict (d : ModerationData.Data) : pydict :=
  (match ModerationData.enabled_servers d with
   | Some e => [("enabled_servers"%string, dump_servers e)]
   | None => []
   end)
  ++ (match ModerationData.user_warnings d with
      | Some w => [("user_warnings"%string, dump_warnings w)]
      | None => []
      end)
  ++ [("moderation_log"%string, JArr (ModerationData.moderation_log d))].

(** The dictionary that [load_data] reads successfully: the file is
    there, it can be read, and its text parses to a JSON object. *)
Definition parsed_object (read_ok : bool) (file : option file_content)
  : option pydict :=
  match file with
  | Some (Doc (JObj loaded_data)) => if read_ok then Some loaded_data else None
  | _ => None
  end.

(** A file that parses, as an object, with a number where the warning
    map should be. *)
Definition ill_typed_file : option file_content :=
  Some (Doc (JObj [("user_warnings"%string, JInt 5)])).

End Store.

(** ** The enforcement pipeline: [handle_nsfw_infraction] and [on_message] *)

Module Pipeline.
Import EscalationSystem ModerationData Store.

Definition NSFW_THRESHOLD : Q := 0.5%Q.

(** [x > y] on scores. *)
Definition Qgtb (x y : Q) : bool := negb (Qle_bool x y).

Record attachment : Type := mkAttachment {
  content_type : option string;
  url : string
}.

Record message : Type := mkMessage {
  author_bot : bool;
  author_id : Z;
  guild : option Z;
  attachments : list attachment
}.

(** How a call to the chat platform ends: it returns, it raises
    [discord.Forbidden], or it raises something else. *)
Inductive outcome : Type := Succeeds | RaisesForbidden | RaisesOther.

(** The fields of the notification embed that depend on the run (the
    title, the footer and the timestamp are left out). *)
Record embed : Type := mkEmbed {
  embed_user : Z;
  embed_score : Q;
  embed_warning_count : Z;
  embed_timeout_duration : string;
  embed_message_removed : bool;
  embed_user_timed_out : bool;
  embed_maximum_escalation : bool
}.

(** What the bot does to the outside world, in order. *)
Inductive event : Type :=
| EvClassify (u : string) (score : Q)
| EvDelete (r : outcome)
| EvTimeout (user : Z) (duration : timedelta) (score : Q) (r : outcome)
| EvSend (e : embed) (sent : bool)
| EvSave (w : write_result) (snapshot : pydict)
| EvLog (l : log_line).

(** The bot: its [data_manager], the backing file and the events so far. *)
Record bot : Type := mkBot {
  data : Data;
  file : option file_content;
  trace : list event
}.

Definition with_data (d : Data) (b : bot) : bot :=
  {| data := d; file := file b; trace := trace b |}.

Definition with_file (f : option file_content) (b : bot) : bot :=
  {| data := data b; file := f; trace := trace b |}.

Definition emit (evs : list event) (b : bot) : bot :=
  {| data := data b; file := file b; trace := trace b ++ evs |}.

(** The collaborators of one pipeline run: the classifier of
    [run_time.py] as a function of the URL, the answers of the chat
    platform, the answer of the file system, and the command dispatcher
    of discord.py. *)
Record env : Type := mkEnv {
  analyze_image : string -> Q;
  delete_result : outcome;
  timeout_result : outcome;
  send_ok : bool;
  write : write_result;
  process_commands : message -> bot -> bot
}.

(** Why a coroutine stopped: it returned, or an exception left it. *)
Inductive completion : Type := Returns | Raises.

Definition safe_delete_message (r : outcome) : bool * list log_line :=
  match r with
  | Succeeds => (true, [])
  | RaisesForbidden => (false, [mkLog WARNING "Missing permissions to delete message"])
  | RaisesOther => (false, [mkLog ERROR "Error deleting message"])
  end.

Definition safe_timeout_user (r : outcome) : bool * list log_line :=
  match r with
  | Succeeds => (true, [])
  | RaisesForbidden => (false, [mkLog WARNING "Missing permissions to timeout"])
  | RaisesOther => (false, [mkLog ERROR "Error timing out user"])
  end.

(** [bot.data_manager.save_data()] on the typed ledger. *)
Definition save (w : write_result) (b : bot) : bot :=
  let snapshot := to_dict (data b) in
  let '(file', lines, _) := save_data w snapshot (file b) in
  emit (EvSave w snapshot :: (EvLog <$> lines)) (with_file file' b).

Definition build_embed (user_id : Z) (score : Q) (warning_count : Z)
           (timeout_duration : timedelta)
           (deletion_success timeout_success : bool) : embed :=
  {| embed_user := user_id;
     embed_score := score;
     embed_warning_count := warning_count;
     embed_timeout_duration := format_duration timeout_duration;
     embed_message_removed := deletion_success;
     embed_user_timed_out := timeout_success;
     embed_maximum_escalation := 4 <=? warning_count |}.

(** [handle_nsfw_infraction(message, score)]. [message.guild.id] raises
    when the message has no guild; [channel.send] is not guarded, so its
    exception leaves the coroutine before [save_data]. *)
Definition handle_nsfw_infraction (e : env) (m : message) (score : Q) (b : bot)
  : bot * completion :=
  let user_id := author_id m in
  match guild m with
  | None => (b, Raises)
  | Some guild_id =>
      let d1 := (increment_warning guild_id user_id (data b)).1 in
      let '(d2, warning_count) := get_user_warnings guild_id user_id d1 in
      let b := with_data d2 b in
      match calculate_timeout warning_count with
      | None => (b, Raises)
      | Some timeout_duration =>
          let '(deletion_success, lines1) := safe_delete_message (delete_result e) in
          let b := emit (EvDelete (delete_result e) :: (EvLog <$> lines1)) b in
          let '(timeout_success, lines2) := safe_timeout_user (timeout_result e) in
          let b := emit (EvTimeout user_id timeout_duration score (timeout_result e)
                           :: (EvLog <$> lines2)) b in
          let em := build_embed user_id score warning_count timeout_duration
                                deletion_success timeout_success in
          let b := emit [EvSend em (send_ok e)] b in
          if send_ok e then (save (write e) b, Returns) else (b, Raises)
      end
  end.

(** [needle in hay] on strings. *)
Fixpoint contains (needle hay : string) : bool :=
  String.prefix needle hay
  || match hay with
     | EmptyString => false
     | String _ rest => contains needle rest
     end.

(** [attachment.content_type and "image" in attachment.content_type]:
    [None] and the empty string are falsy. *)
Definition is_image (a : attachment) : bool :=
  match content_type a with
  | None => false
  | Some ct => negb (String.eqb ct "") && contains "image" ct
  end.

(** The [for attachment in message.attachments] loop of [on_message]. *)
Fixpoint scan_attachments (e : env) (m : message) (atts : list attachment)
         (b : bot) : bot * completion :=
  match atts with
  | [] => (b, Returns)
  | a :: rest =>
      if is_image a then
        let score := analyze_image e (url a) in
        let b := emit [EvClassify (url a) score] b in
        if Qeq_bool score (-1) then scan_attachments e m rest b
        else if Qgtb score NSFW_THRESHOLD then handle_nsfw_infraction e m score b
        else scan_attachments e m rest b
      else scan_attachments e m rest b
  end.

Definition on_message (e : env) (m : message) (b : bot) : bot * completion :=
  let b := process_commands e m b in
  if author_bot m then (b, Returns)
  else
    match guild m with
    | None => (b, Returns)
    | Some guild_id =>
        let '(d, enabled) := is_enabled guild_id (data b) in
        let b := with_data d b in
        if enabled then scan_attachments e m (attachments m) b
        else (b, Returns)
    end.

(** An attachment that the loop treats as a violation: it is scanned as
    an image and its score is above the threshold. *)
Definition flagged (e : env) (a : attachment) : bool :=
  is_image a && Qgtb (analyze_image e (url a)) NSFW_THRESHOLD.

(** The attachment has no content-type hint, or one without ["image"]. *)
Definition lacks_image_hint (a : attachment) : bool :=
  match content_type a with
  | None => true
  | Some ct => negb (contains "image" ct)
  end.

(** One classifier call for each image attachment of the list, in order. *)
Definition classify_events (e : env) (atts : list attachment) : list event :=
  (fun a => EvClassify (url a) (analyze_image e (url a)))
    <$> filter (fun a => is_image a = true) atts.

(** The events of the enforcement action once the warning count is
    known. *)
Definition enforcement_events (e : env) (user_id : Z) (score : Q)
           (warning_count : Z) (timeout_duration : timedelta) : list event :=
  (EvDelete (delete_result e) :: (EvLog <$> (safe_delete_message (delete_result e)).2))
  ++ (EvTimeout user_id timeout_duration score (timeout_result e)
        :: (EvLog <$> (safe_timeout_user (timeout_result e)).2))
  ++ [EvSend (build_embed user_id score warning_count timeout_duration
                          (safe_delete_message (delete_result e)).1
                          (safe_timeout_user (timeout_result e)).1)
             (send_ok e)].

(** Counting in a trace. *)
Definition is_send (ev : event) : bool :=
  match ev with EvSend _ _ => true | _ => false end.

Definition is_timeout (ev : event) : bool :=
  match ev with EvTimeout _ _ _ _ => true | _ => false end.

Definition is_classify_of (u : string) (ev : event) : bool :=
  match ev with EvClassify u' _ => String.eqb u u' | _ => false end.

Definition count_events (p : event -> bool) (t : list event) : nat :=
  length (filter (fun ev => p ev = true) t).

End Pipeline.

(** ** Sample runs *)

Module Scenario.
Import ModerationData Store Pipeline.

Definition image (u : string) : attachment :=
  {| content_type := Some "image/png"%string; url := u |}.

Definition document (u : string) : attachment :=
  {| content_type := Some "application/pdf"%string; url := u |}.

Definition untyped (u : string) : attachment :=
  {| content_type := None; url := u |}.

(** A classifier that knows four resources. *)
Definition classifier (u : string) : Q :=
  if String.eqb u "nsfw" then 0.8%Q
  else if String.eqb u "worse" then 0.9%Q
  else if String.eqb u "broken" then (-1)%Q
  else 0.1%Q.

Definition no_commands (m : message) (b : bot) : bot := b.

(** Every collaborator answers. *)
Definition cooperative : env :=
  {| analyze_image := classifier;
     delete_result := Succeeds;
     timeout_result := Succeeds;
     send_ok := true;
     write := WriteOk;
     process_commands := no_commands |}.

(** The platform refuses deletion and timeout. *)
Definition forbidden : env :=
  {| analyze_image := classifier;
     delete_result := RaisesForbidden;
     timeout_result := RaisesForbidden;
     send_ok := true;
     write := WriteOk;
     process_commands := no_commands |}.

(** Member 7 of community 5 posts these attachments. *)
Definition post (atts : list attachment) : message :=
  {| author_bot := false; author_id := 7; guild := Some 5; attachments := atts |}.

(** The same attachments posted by a bot account. *)
Definition bot_post (atts : list attachment) : message :=
  {| author_bot := true; author_id := 7; guild := Some 5; attachments := atts |}.

(** A bot that has just started, with moderation enabled in community 5. *)
Definition enabled_bot : bot :=
  {| data := set_enabled 5 true init; file := None; trace := [] |}.

(** The same bot when member 7 of community 5 already has three warnings. *)
Definition warned_bot : bot :=
  {| data := increment_n 3 5 7 (set_enabled 5 true init);
     file := None; trace := [] |}.

End Scenario.

(** ** Concurrent pipeline instances on the asyncio event loop

    The event loop is cooperative: a coroutine runs until its next
    [await] of an external call and only there can another coroutine
    run. [handle_nsfw_infraction] is cut at its awaits ([message.delete],
    [member.timeout], [channel.send], opening the file, writing it);
    [increment_warning] and [get_user_warnings] are plain [def]s with no
    [await] inside, so they lie within the first segment. *)

Module Scheduler.
Import EscalationSystem ModerationData Store Pipeline.

(** Where a [handle_nsfw_infraction] coroutine is suspended, with the
    local variables it still needs. *)
Inductive pc : Type :=
| AtStart
| AwaitDelete (warning_count : Z) (timeout_duration : timedelta)
| AwaitTimeout (warning_count : Z) (timeout_duration : timedelta)
               (deletion_success : bool)
| AwaitSend (em : embed)
| AwaitOpen
| AwaitWrite (snapshot : pydict)
| Finished (c : completion).

Record task : Type := mkTask {
  t_env : env;
  t_msg : message;
  t_score : Q;
  t_pc : pc
}.

Definition at_pc (p : pc) (t : task) : task :=
  {| t_env := t_env t; t_msg := t_msg t; t_score := t_score t; t_pc := p |}.

(** Run the task from where it is suspended to its next await. *)
Definition resume (t : task) (b : bot) : task * bot :=
  let e := t_env t in
  let m := t_msg t in
  let user_id := author_id m in
  match t_pc t with
  | AtStart =>
      match guild m with
      | None => (at_pc (Finished Raises) t, b)
      | Some guild_id =>
          let d1 := (increment_warning guild_id user_id (data b)).1 in
          let '(d2, warning_count) := get_user_warnings guild_id user_id d1 in
          let b := with_data d2 b in
          match calculate_timeout warning_count with
          | None => (at_pc (Finished Raises) t, b)
          | Some timeout_duration =>
              (at_pc (AwaitDelete warning_count timeout_duration) t, b)
          end
      end
  | AwaitDelete warning_count timeout_duration =>
      let '(deletion_success, lines1) := safe_delete_message (delete_result e) in
      (at_pc (AwaitTimeout warning_count timeout_duration deletion_success) t,
       emit (EvDelete (delete_result e) :: (EvLog <$> lines1)) b)
  | AwaitTimeout warning_count timeout_duration deletion_success =>
      let '(timeout_success, lines2) := safe_timeout_user (timeout_result e) in
      let em := build_embed user_id (t_score t) warning_count timeout_duration
                            deletion_success timeout_success in
      (at_pc (AwaitSend em) t,
       emit (EvTimeout user_id timeout_duration (t_score t) (timeout_result e)
               :: (EvLog <$> lines2)) b)
  | AwaitSend em =>
      let b := emit [EvSend em (send_ok e)] b in
      if send_ok e then (at_pc AwaitOpen t, b)
      else (at_pc (Finished Raises) t, b)
  | AwaitOpen =>
      match write e with
      | OpenFails => (at_pc (Finished Returns) t, save OpenFails b)
      | _ => (at_pc (AwaitWrite (to_dict (data b))) t, with_file (Some Garbage) b)
      end
  | AwaitWrite snapshot =>
      let '(file', lines, _) := save_data (write e) snapshot (file b) in
      (at_pc (Finished Returns) t,
       emit (EvSave (write e) snapshot :: (EvLog <$> lines)) (with_file file' b))
  | Finished _ => (t, b)
  end.

(** A schedule names, step after step, the task that the loop resumes. *)
Fixpoint run (schedule : list nat) (pool : list task) (b : bot)
  : list task * bot :=
  match schedule with
  | [] => (pool, b)
  | i :: rest =>
      match pool !! i with
      | Some t =>
          let '(t', b') := resume t b in
          run rest (<[i := t']> pool) b'
      | None => run rest pool b
      end
  end.

Definition finished (t : task) : bool :=
  match t_pc t with Finished _ => true | _ => false end.

(** Is the task a pipeline instance for this (community, member) key? *)
Definition for_key (guild_id user_id : Z) (t : task) : bool :=
  match guild (t_msg t) with
  | Some g => (g =? guild_id) && (author_id (t_msg t) =? user_id)
  | None => false
  end.

Definition pending_for (guild_id user_id : Z) (t : task) : bool :=
  for_key guild_id user_id t
  && match t_pc t with AtStart => true | _ => false end.

Definition pending_weight (guild_id user_id : Z) (t : task) : Z :=
  if pending_for guild_id user_id t then 1 else 0.

Definition count_tasks (p : task -> bool) (pool : list task) : Z :=
  Z.of_nat (length (filter (fun t => p t = true) pool)).

Definition start (e : env) (m : message) (score : Q) : task :=
  {| t_env := e; t_msg := m; t_score := score; t_pc := AtStart |}.

(** A bound on the number of times a task can still be resumed before
    it is finished. *)
Definition steps_left (p : pc) : nat :=
  match p with
  | AtStart => 6
  | AwaitDelete _ _ => 5
  | AwaitTimeout _ _ _ => 4
  | AwaitSend _ => 3
  | AwaitOpen => 2
  | AwaitWrite _ => 1
  | Finished _ => 0
  end.

(** Two violations by member 7 of community 5 in flight at once, one
    with a platform that refuses the actions. *)
Definition two_violations : list task :=
  [start Scenario.cooperative (Scenario.post [Scenario.image "nsfw"]) 0.8;
   start Scenario.forbidden (Scenario.post [Scenario.image "worse"]) 0.9].

(** The loop switches between the two at every await. *)
Definition alternating : list nat :=
  [0; 1; 1; 0; 0; 1; 0; 1; 1; 0; 0; 1]%nat.

End Scheduler.

(** ** The statistics that the commands and [on_ready] compute *)

Module Statistics.
Import ModerationData.

(** [bot.data_manager.data.get('user_warnings', {}).get(str(guild_id), {})]:
    the commands read the nested dictionary directly, adding no key. *)
Definition server_warnings (guild_id : Z) (d : Data) : gmap string Z :=
  default ∅ (default ∅ (user_warnings d) !! str guild_id).

(** [sum(server_warnings.values())]. *)
Definition total_warnings (sw : gmap string Z) : Z :=
  map_fold (fun _ count acc => count + acc) 0 sw.

(** [len(server_warnings)]. *)
Definition unique_users (sw : gmap string Z) : nat := size sw.

(** [on_ready]: [len([s for s in data['enabled_servers'].values() if s])],
    and 0 when the key is missing. *)
Definition enabled_count (d : Data) : nat :=
  match enabled_servers d with
  | Some e => size (filter (fun kv => kv.2 = true) e)
  | None => 0%nat
  end.

(** [sorted(items, key=lambda x: int(x[1]), reverse=True)]: a stable sort
    by decreasing count; an item goes in front of the first item of the
    sorted rest whose count is not above its own. *)
Fixpoint insert_by_count (x : string * Z) (l : list (string * Z))
  : list (string * Z) :=
  match l with
  | [] => [x]
  | y :: rest =>
      if y.2 <=? x.2 then x :: y :: rest else y :: insert_by_count x rest
  end.

Definition sort_by_count (items : list (string * Z)) : list (string * Z) :=
  foldr insert_by_count [] items.

(** The order of the sorted list: no count is followed by a larger one. *)
Definition by_count : relation (string * Z) := fun x y => y.2 <= x.2.

(** [sorted(...)[:10]]: the ten most warned users. *)
Definition sorted_warnings (items : list (string * Z)) : list (string * Z) :=
  take 10 (sort_by_count items).

End Statistics.

(** ** The command surface *)

Module Commands.
Import EscalationSystem Store Pipeline Statistics.

(** What a command handler reads from [ctx]: the guild of the message,
    if any, and whether the author is an administrator of it. *)
Record context : Type := mkContext {
  ctx_guild : option Z;
  ctx_admin : bool
}.

(** The messages that the handlers send with [ctx.send], by their
    content. *)
Inductive reply : Type :=
| ServerOnly
| AccessDenied
| GroupInfo (enabled : bool) (active_warnings : nat)
| ModerationEnabled
| ModerationDisabled
| StatusReport (enabled : bool) (total : Z) (users : nat)
| UserWarnings (user : Z) (count : Z) (next_timeout : option string)
| NoWarnings
| Leaderboard (rows : list (string * Z * string))
| WarningsReset (user : Z)
| AllWarningsReset
| Help
| InvalidArgument
| CommandError.

(** The bot after the handler, the replies it attempted (with whether
    [ctx.send] went through) and how the handler ended; an exception of
    [ctx.send] is not caught by any handler. *)
Definition result : Type := bot * list (reply * bool) * completion.

Definition sent (reply_ok : bool) : completion :=
  if reply_ok then Returns else Raises.

Definition moderation_group (reply_ok : bool) (x : context) (b : bot) : result :=
  match ctx_guild x with
  | None => (b, [(ServerOnly, reply_ok)], sent reply_ok)
  | Some guild_id =>
      if negb (ctx_admin x) then (b, [(AccessDenied, reply_ok)], sent reply_ok)
      else
        let '(d, enabled) := ModerationData.is_enabled guild_id (data b) in
        let active_warnings := size (server_warnings guild_id d) in
        (with_data d b, [(GroupInfo enabled active_warnings, reply_ok)],
         sent reply_ok)
  end.

Definition enable_moderation (reply_ok : bool) (w : write_result)
           (x : context) (b : bot) : result :=
  match ctx_guild x with
  | None => (b, [(ServerOnly, reply_ok)], sent reply_ok)
  | Some guild_id =>
      if negb (ctx_admin x) then (b, [(AccessDenied, reply_ok)], sent reply_ok)
      else
        let b := with_data (ModerationData.set_enabled guild_id true (data b)) b in
        let b := save w b in
        if reply_ok
        then (emit [EvLog (mkLog INFO "Moderation enabled")] b,
              [(ModerationEnabled, true)], Returns)
        else (b, [(ModerationEnabled, false)], Raises)
  end.

Definition disable_moderation (reply_ok : bool) (w : write_result)
           (x : context) (b : bot) : result :=
  match ctx_guild x with
  | None => (b, [(ServerOnly, reply_ok)], sent reply_ok)
  | Some guild_id =>
      if negb (ctx_admin x) then (b, [(AccessDenied, reply_ok)], sent reply_ok)
      else
        let b := with_data (ModerationData.set_enabled guild_id false (data b)) b in
        let b := save w b in
        if reply_ok
        then (emit [EvLog (mkLog INFO "Moderation disabled")] b,
              [(ModerationDisabled, true)], Returns)
        else (b, [(ModerationDisabled, false)], Raises)
  end.

(** [moderation_status] checks the guild and nothing else. *)
Definition moderation_status (reply_ok : bool) (x : context) (b : bot) : result :=
  match ctx_guild x with
  | None => (b, [(ServerOnly, reply_ok)], sent reply_ok)
  | Some guild_id =>
      let '(d, enabled) := ModerationData.is_enabled guild_id (data b) in
      let sw := server_warnings guild_id d in
      (with_data d b,
       [(StatusReport enabled (total_warnings sw) (unique_users sw), reply_ok)],
       sent reply_ok)
  end.

(** One row of the leaderboard: the name that [bot.fetch_user] gives
    ([None] when it raises), the count and the timeout of that count. *)
Definition leaderboard_row (fetch_user : string -> option string)
           (item : string * Z) : option (string * Z * string) :=
  let username :=
    match fetch_user item.1 with
    | Some name => name
    | None => ("Unknown (" +:+ item.1 +:+ ")")%string
    end in
  match calculate_timeout item.2 with
  | Some timeout_duration => Some (username, item.2, format_duration timeout_duration)
  | None => None
  end.

(** [check_warnings(ctx, user=None)] checks the guild and nothing else.
    [items] stands for [server_warnings.items()]: the entries of the
    dictionary in the order in which its keys were inserted, an order
    that the map of the ledger does not record. *)
Definition check_warnings (reply_ok : bool) (fetch_user : string -> option string)
           (items : gmap string Z -> list (string * Z))
           (x : context) (user : option Z) (b : bot) : result :=
  match ctx_guild x with
  | None => (b, [(ServerOnly, reply_ok)], sent reply_ok)
  | Some guild_id =>
      match user with
      | Some user_id =>
          let '(d, warning_count) :=
            ModerationData.get_user_warnings guild_id user_id (data b) in
          let b := with_data d b in
          if 0 <? warning_count then
            match calculate_timeout (warning_count + 1) with
            | Some next_timeout =>
                (b, [(UserWarnings user_id warning_count
                        (Some (format_duration next_timeout)), reply_ok)],
                 sent reply_ok)
            | None => (b, [], Raises)
            end
          else (b, [(UserWarnings user_id warning_count None, reply_ok)],
                sent reply_ok)
      | None =>
          let sw := server_warnings guild_id (data b) in
          if bool_decide (sw = ∅) then (b, [(NoWarnings, reply_ok)], sent reply_ok)
          else
            match mapM (leaderboard_row fetch_user)
                       (sorted_warnings (items sw)) with
            | Some rows => (b, [(Leaderboard rows, reply_ok)], sent reply_ok)
            | None => (b, [], Raises)
            end
      end
  end.

(** The command [reset_warnings(ctx, user=None)]: the confirmation is sent
    before [save_data]. *)
Definition reset_warnings (reply_ok : bool) (w : write_result)
           (x : context) (user : option Z) (b : bot) : result :=
  match ctx_guild x with
  | None => (b, [(ServerOnly, reply_ok)], sent reply_ok)
  | Some guild_id =>
      if negb (ctx_admin x) then (b, [(AccessDenied, reply_ok)], sent reply_ok)
      else
        match user with
        | Some user_id =>
            let b := with_data (ModerationData.reset_warnings (Some guild_id)
                                  (Some user_id) (data b)) b in
            if reply_ok
            then (save w (emit [EvLog (mkLog INFO "Warnings reset")] b),
                  [(WarningsReset user_id, true)], Returns)
            else (b, [(WarningsReset user_id, false)], Raises)
        | None =>
            let b := with_data (ModerationData.reset_warnings (Some guild_id)
                                  None (data b)) b in
            if reply_ok
            then (save w (emit [EvLog (mkLog INFO "All warnings reset")] b),
                  [(AllWarningsReset, true)], Returns)
            else (b, [(AllWarningsReset, false)], Raises)
        end
  end.

Definition moderation_help (reply_ok : bool) (b : bot) : result :=
  (b, [(Help, reply_ok)], sent reply_ok).

(** The errors that [on_command_error] tells apart. *)
Inductive command_error : Type :=
| CommandNotFound
| MissingPermissions
| BadArgument
| OtherError.

Definition on_command_error (reply_ok : bool) (err : command_error) (b : bot)
  : result :=
  match err with
  | CommandNotFound => (b, [], Returns)
  | MissingPermissions =>
      (emit [EvLog (mkLog ERROR "Command error")] b,
       [(AccessDenied, reply_ok)], sent reply_ok)
  | BadArgument =>
      (emit [EvLog (mkLog ERROR "Command error")] b,
       [(InvalidArgument, reply_ok)], sent reply_ok)
  | OtherError =>
      (emit [EvLog (mkLog ERROR "Command error")] b,
       [(CommandError, reply_ok)], sent reply_ok)
  end.

(** The subcommands of the [mod] group, as the dispatcher resolves a
    message, and the handler of each. *)
Inductive command : Type :=
| CmdGroup
| CmdEnable
| CmdDisable
| CmdStatus
| CmdWarnings (user : option Z)
| CmdReset (user : option Z)
| CmdHelp.

Definition invoke (reply_ok : bool) (w : write_result)
           (fetch_user : string -> option string)
           (items : gmap string Z -> list (string * Z))
           (c : command) (x : context) (b : bot) : result :=
  match c with
  | CmdGroup => moderation_group reply_ok x b
  | CmdEnable => enable_moderation reply_ok w x b
  | CmdDisable => disable_moderation reply_ok w x b
  | CmdStatus => moderation_status reply_ok x b
  | CmdWarnings user => check_warnings reply_ok fetch_user items x user b
  | CmdReset user => reset_warnings reply_ok w x user b
  | CmdHelp => moderation_help reply_ok b
  end.

(** The commands that write to the ledger. *)
Definition mutating (c : command) : bool :=
  match c with
  | CmdEnable | CmdDisable | CmdReset _ => true
  | _ => false
  end.

(** An administrator of community 5; a plain member of it. *)
Definition admin_of_5 : context := {| ctx_guild := Some 5; ctx_admin := true |}.
Definition member_of_5 : context := {| ctx_guild := Some 5; ctx_admin := false |}.

Definition nobody (user_id : string) : option string := None.

(** The items of a dictionary whose keys were inserted in the order
    [keys]. *)
Definition items_in_order (keys : list string) (sw : gmap string Z)
  : list (string * Z) :=
  omap (fun k => pair k <$> sw !! k) keys.

(** Moderation is enabled in community 5; member 8 was warned first,
    member 7 after, once each. *)
Definition tied_bot : bot :=
  {| data := (ModerationData.increment_warning 5 7
                (ModerationData.increment_warning 5 8
                   (ModerationData.set_enabled 5 true ModerationData.init)).1).1;
     file := None; trace := [] |}.

End Commands.

(** ** Start and stop *)

Module Lifecycle.
Import Store Pipeline.

(** [setup_hook]: a [ModerationData] fresh from [__init__] loads the file. *)
Definition setup_hook (read_ok : bool) (w : write_result)
           (file : option file_content)
  : pydict * option file_content * list log_line :=
  let '(data, file', lines) := load_data read_ok w default_dict file in
  (data, file', mkLog INFO "Bot is starting up..." :: lines).

(** [close]: [save_data], then the connection is closed. *)
Definition close (w : write_result) (b : bot) : bot := save w b.

(** The durations of the timeouts of a trace, in order. *)
Definition timeout_durations (t : list event) : list EscalationSystem.timedelta :=
  omap (fun ev => match ev with
                  | EvTimeout _ duration _ _ => Some duration
                  | _ => None
                  end) t.

(** The same message arriving [n] times, one run after the other. *)
Fixpoint repeat_message (n : nat) (e : env) (m : message) (b : bot) : bot :=
  match n with
  | O => b
  | S n' => repeat_message n' e m (on_message e m b).1
  end.

End Lifecycle.

(** * Properties *)

(** ** Escalation policy *)

Section EscalationFacts.
Import EscalationSystem.

Lemma TIMEOUT_LEVELS_4 : TIMEOUT_LEVELS !! 4 = Some (timedelta_hours 6).
Proof. reflexivity. Qed.

Lemma TIMEOUT_LEVELS_outside (k : Z) :
  k <= 0 -> TIMEOUT_LEVELS !! k = None.
Proof.
  intros Hk. unfold TIMEOUT_LEVELS.
  rewrite !lookup_insert_ne by lia. apply lookup_empty.
Qed.

Lemma calculate_timeout_cases (c : Z) :
  calculate_timeout c =
  Some (if c <=? 0 then timedelta_hours 6
        else if c =? 1 then timedelta_minutes 10
        else if c =? 2 then timedelta_hours 1
        else if c =? 3 then timedelta_hours 3
        else timedelta_hours 6).
Proof.
  unfold calculate_timeout. rewrite TIMEOUT_LEVELS_4. f_equal.
  destruct (Z.leb_spec c 0) as [Hle | Hgt].
  - rewrite Z.min_l by lia. by rewrite TIMEOUT_LEVELS_outside.
  - destruct (Z.eqb_spec c 1) as [-> | H1]; [reflexivity |].
    destruct (Z.eqb_spec c 2) as [-> | H2]; [reflexivity |].
    destruct (Z.eqb_spec c 3) as [-> | H3]; [reflexivity |].
    rewrite Z.min_r by lia. reflexivity.
Qed.

(** C2, as the code has it: counts 1, 2 and 3 give 10 minutes, 1 hour
    and 3 hours, every count of 4 or more gives 6 hours, and every count
    of 0 or less misses the table and gets the default, 6 hours (not the
    10 minutes of count 1); the result is never a zero duration. *)
Theorem calculate_timeout_table (c : Z) :
  calculate_timeout c =
  Some (if c <=? 0 then timedelta_hours 6
        else if c =? 1 then timedelta_minutes 10
        else if c =? 2 then timedelta_hours 1
        else if c =? 3 then timedelta_hours 3
        else timedelta_hours 6)
  /\ calculate_timeout c <> Some 0
  /\ calculate_timeout c <> None.
Proof.
  rewrite calculate_timeout_cases. split; [reflexivity |].
  split; [| discriminate].
  destruct (c <=? 0); [discriminate |].
  destruct (c =? 1); [discriminate |].
  destruct (c =? 2); [discriminate |].
  destruct (c =? 3); discriminate.
Qed.

(** C2 as stated fails at count 0: the policy answers 6 hours there,
    which is not the answer for count 1. *)
Lemma calculate_timeout_zero_is_not_first_level :
  calculate_timeout 0 = Some (timedelta_hours 6)
  /\ calculate_timeout 1 = Some (timedelta_minutes 10)
  /\ calculate_timeout 0 <> calculate_timeout 1.
Proof. repeat split; discriminate. Qed.

(** X1: From count 1 on the policy is monotone: more warnings never
    shorten the timeout. *)
Lemma calculate_timeout_monotone (c c' : Z) (t t' : timedelta) :
  1 <= c -> c <= c' ->
  calculate_timeout c = Some t -> calculate_timeout c' = Some t' -> t <= t'.
Proof.
  intros H1 Hle. rewrite !calculate_timeout_cases.
  intros [= <-] [= <-].
  unfold timedelta_hours, timedelta_minutes.
  repeat match goal with
         | |- context [Z.leb ?a ?b] => destruct (Z.leb_spec a b)
         | |- context [Z.eqb ?a ?b] => destruct (Z.eqb_spec a b)
         end; lia.
Qed.

(** X2: The timeout is never zero and never above the six hours of
    [MAX_TIMEOUT_DURATION]. *)
Lemma calculate_timeout_bounded (c : Z) (t : timedelta) :
  calculate_timeout c = Some t -> 0 < t <= MAX_TIMEOUT_DURATION.
Proof.
  rewrite calculate_timeout_cases. intros [= <-].
  unfold MAX_TIMEOUT_DURATION, timedelta_hours, timedelta_minutes.
  repeat match goal with
         | |- context [Z.leb ?a ?b] => destruct (Z.leb_spec a b)
         | |- context [Z.eqb ?a ?b] => destruct (Z.eqb_spec a b)
         end; lia.
Qed.

End EscalationFacts.

(** ** The ledger *)

Section LedgerFacts.
Import ModerationData.

Lemma str_inj (a b : Z) : str a = str b -> a = b.
Proof. unfold str. apply (inj pretty). Qed.

Lemma warnings_of_set w d : warnings_of (set_user_warnings w d) = w.
Proof. reflexivity. Qed.

Lemma warning_count_stored g u d :
  warning_count g u d = default 0 (stored_count g u d).
Proof.
  unfold warning_count, stored_count.
  destruct (warnings_of d !! str g) as [server |]; [reflexivity |].
  cbn. by rewrite lookup_empty.
Qed.

(** The dictionary that [increment_warning] leaves behind. *)
Lemma increment_warning_warnings g u d :
  warnings_of (increment_warning g u d).1 =
  <[str g := <[str u := warning_count g u d + 1]>
               (default ∅ (warnings_of d !! str g))]> (warnings_of d).
Proof.
  unfold increment_warning, get_user_warnings. cbn.
  unfold warning_count. rewrite !warnings_of_set.
  destruct (warnings_of d !! str g) as [server |] eqn:Hg.
  - rewrite Hg. reflexivity.
  - rewrite lookup_insert_eq. cbn.
    by rewrite insert_insert_eq.
Qed.

Lemma increment_warning_stored g u d :
  stored_count g u (increment_warning g u d).1 = Some (warning_count g u d + 1).
Proof.
  unfold stored_count. rewrite increment_warning_warnings.
  rewrite lookup_insert_eq. apply lookup_insert_eq.
Qed.

Lemma increment_warning_stored_other g u g' u' d :
  (g', u') <> (g, u) ->
  warning_count g' u' (increment_warning g u d).1 = warning_count g' u' d.
Proof.
  intros Hne. unfold warning_count. rewrite increment_warning_warnings.
  destruct (decide (g' = g)) as [-> | Hg].
  - rewrite lookup_insert_eq. cbn.
    rewrite lookup_insert_ne; [reflexivity |].
    intros E. apply str_inj in E. congruence.
  - rewrite lookup_insert_ne; [reflexivity |].
    intros E. apply str_inj in E. congruence.
Qed.

Lemma increment_warning_count g u d :
  warning_count g u (increment_warning g u d).1 = warning_count g u d + 1.
Proof.
  by rewrite warning_count_stored, increment_warning_stored.
Qed.

Lemma increment_warning_log g u d :
  moderation_log (increment_warning g u d).1 = moderation_log d.
Proof. reflexivity. Qed.

Lemma increment_warning_servers g u d :
  enabled_servers (increment_warning g u d).1 = enabled_servers d.
Proof. reflexivity. Qed.

Lemma increment_n_count n g u d :
  warning_count g u (increment_n n g u d) = warning_count g u d + Z.of_nat n.
Proof.
  revert d. induction n as [| n IH]; intros d; cbn [increment_n].
  - lia.
  - rewrite IH, increment_warning_count. lia.
Qed.

(** C3, as the code has it: [increment_warning] reads the current count
    and stores exactly that count plus 1, but it has no [return], so the
    caller gets [None] and reads the new count with [get_user_warnings];
    [n] calls in a row on a pair with no stored count make
    [get_user_warnings] return [n]. *)
Theorem increment_warning_stores_successor (g u : Z) (d : Data) (n : nat) :
  (increment_warning g u d).2 = None
  /\ stored_count g u (increment_warning g u d).1 = Some (warning_count g u d + 1)
  /\ (get_user_warnings g u (increment_warning g u d).1).2 = warning_count g u d + 1
  /\ (get_user_warnings g u (increment_n n g u d)).2 = warning_count g u d + Z.of_nat n
  /\ (stored_count g u d = None ->
      (get_user_warnings g u (increment_n n g u d)).2 = Z.of_nat n).
Proof.
  split; [reflexivity |].
  split; [apply increment_warning_stored |].
  split; [apply increment_warning_count |].
  split; [apply increment_n_count |].
  intros Hfresh. cbn [get_user_warnings snd].
  rewrite increment_n_count, warning_count_stored, Hfresh. cbn. lia.
Qed.

(** The theorem at work: three increments of a fresh pair. *)
Lemma increment_warning_stores_successor_witness :
  stored_count 11 22 init = None
  /\ (get_user_warnings 11 22 (increment_n 3 11 22 init)).2 = 3.
Proof.
  split; [reflexivity |].
  apply (increment_warning_stores_successor 11 22 init 3). reflexivity.
Defined.

(** C3 as stated fails on the return value: the call on a fresh pair
    stores the count 1 and returns [None], not that count. *)
Lemma increment_warning_returns_none :
  warning_count 11 22 (increment_warning 11 22 init).1 = 1
  /\ (increment_warning 11 22 init).2 = None
  /\ (increment_warning 11 22 init).2
     <> Some (warning_count 11 22 (increment_warning 11 22 init).1).
Proof. split; [reflexivity |]. split; [reflexivity | discriminate]. Qed.

End LedgerFacts.

(** ** The three modes of [reset_warnings] *)

Section ResetFacts.
Import ModerationData.

Lemma truthy_some (n : Z) : truthy (Some n) = negb (n =? 0).
Proof. reflexivity. Qed.

Lemma warning_count_set_empty g u d :
  warning_count g u (set_user_warnings ∅ d) = 0.
Proof.
  unfold warning_count. rewrite warnings_of_set, lookup_empty. cbn.
  by rewrite lookup_empty.
Qed.

Lemma warning_count_no_server g u d :
  warnings_of d !! str g = None -> warning_count g u d = 0.
Proof.
  intros H. unfold warning_count. rewrite H. cbn. by rewrite lookup_empty.
Qed.

(** Member mode, community mode and global mode all leave the count of
    a pair they address at 0. *)
Lemma reset_warnings_member_zero (g u : Z) (d : Data) :
  warning_count g u (reset_warnings (Some g) (Some u) d) = 0.
Proof.
  unfold reset_warnings.
  destruct (user_warnings d) as [w |] eqn:Hw;
    [| apply warning_count_set_empty].
  assert (Hof : warnings_of d = w) by (unfold warnings_of; by rewrite Hw).
  destruct (truthy (Some g)); cbn [andb default from_option id].
  - destruct (truthy (Some u)).
    + destruct (w !! str g) as [server |] eqn:Hg.
      * destruct (server !! str u) as [c |] eqn:Hu.
        -- unfold warning_count. rewrite warnings_of_set, lookup_insert_eq.
           cbn. by rewrite lookup_delete_eq.
        -- unfold warning_count. rewrite Hof, Hg. cbn. by rewrite Hu.
      * apply warning_count_no_server. by rewrite Hof.
    + destruct (w !! str g) as [server |] eqn:Hg.
      * unfold warning_count. rewrite warnings_of_set, lookup_insert_eq.
        cbn. by rewrite lookup_empty.
      * apply warning_count_no_server. by rewrite Hof.
  - apply warning_count_set_empty.
Qed.

Lemma reset_warnings_community_zero (g u : Z) (d : Data) :
  warning_count g u (reset_warnings (Some g) None d) = 0.
Proof.
  unfold reset_warnings.
  destruct (user_warnings d) as [w |] eqn:Hw;
    [| apply warning_count_set_empty].
  assert (Hof : warnings_of d = w) by (unfold warnings_of; by rewrite Hw).
  rewrite andb_false_r. cbn [default from_option id].
  destruct (truthy (Some g)); [| apply warning_count_set_empty].
  destruct (w !! str g) as [server |] eqn:Hg.
  - unfold warning_count. rewrite warnings_of_set, lookup_insert_eq.
    cbn. by rewrite lookup_empty.
  - apply warning_count_no_server. by rewrite Hof.
Qed.

Lemma reset_warnings_community_others (g g' u' : Z) (d : Data) :
  g <> 0 -> g' <> g ->
  warning_count g' u' (reset_warnings (Some g) None d) = warning_count g' u' d.
Proof.
  intros Hnz Hne. unfold reset_warnings.
  destruct (user_warnings d) as [w |] eqn:Hw.
  - assert (Hof : warnings_of d = w) by (unfold warnings_of; by rewrite Hw).
    rewrite andb_false_r, truthy_some. cbn [default from_option id].
    destruct (Z.eqb_spec g 0) as [| _]; [done |]. cbn [negb].
    destruct (w !! str g) as [server |] eqn:Hg; [| reflexivity].
    unfold warning_count. rewrite warnings_of_set, Hof.
    rewrite lookup_insert_ne; [reflexivity |].
    intros E. apply str_inj in E. congruence.
  - unfold warning_count, warnings_of. rewrite Hw. cbn.
    by rewrite lookup_empty.
Qed.

Lemma reset_warnings_global_zero (g u : Z) (d : Data) :
  warning_count g u (reset_warnings None None d) = 0.
Proof.
  unfold reset_warnings.
  destruct (user_warnings d); apply warning_count_set_empty.
Qed.

Lemma set_user_warnings_twice w w' d :
  set_user_warnings w (set_user_warnings w' d) = set_user_warnings w d.
Proof. reflexivity. Qed.

Lemma reset_warnings_idempotent (a b : option Z) (d : Data) :
  reset_warnings a b (reset_warnings a b d) = reset_warnings a b d.
Proof.
  unfold reset_warnings.
  destruct (user_warnings d) as [w |] eqn:Hw;
    cbn [user_warnings set_user_warnings].
  - destruct (truthy a && truthy b) eqn:Hab.
    + destruct (w !! str (default 0 a)) as [server |] eqn:Hg;
        [| by rewrite Hw, Hg].
      destruct (server !! str (default 0 b)) as [c |] eqn:Hu;
        [| by rewrite Hw, Hg, Hu].
      cbn [user_warnings set_user_warnings].
      by rewrite lookup_insert_eq, lookup_delete_eq.
    + destruct (truthy a) eqn:Ha; [| reflexivity].
      destruct (w !! str (default 0 a)) as [server |] eqn:Hg;
        [| by rewrite Hw, Hg].
      cbn [user_warnings set_user_warnings].
      by rewrite lookup_insert_eq, insert_insert_eq.
  - destruct (truthy a && truthy b); [by rewrite lookup_empty |].
    destruct (truthy a); [by rewrite lookup_empty | reflexivity].
Qed.

(** C7: each of the three modes of [reset_warnings] is idempotent; after
    the member mode the member's count is 0; the community mode zeroes
    every member of the community and leaves the counts of every other
    community unchanged; the global mode zeroes every count. The
    community whose other communities are left alone is any community id
    other than 0: the ids that reach [reset_warnings] are Discord ids
    ([ctx.guild.id], [user.id]), which are never 0. *)
Theorem reset_warnings_modes (g u g' u' : Z) (a b : option Z) (d : Data) :
  reset_warnings a b (reset_warnings a b d) = reset_warnings a b d
  /\ warning_count g u (reset_warnings (Some g) (Some u) d) = 0
  /\ warning_count g u (reset_warnings (Some g) None d) = 0
  /\ (g <> 0 -> g' <> g ->
      warning_count g' u' (reset_warnings (Some g) None d) = warning_count g' u' d)
  /\ warning_count g u (reset_warnings None None d) = 0.
Proof.
  split; [apply reset_warnings_idempotent |].
  split; [apply reset_warnings_member_zero |].
  split; [apply reset_warnings_community_zero |].
  split; [by apply reset_warnings_community_others |].
  apply reset_warnings_global_zero.
Qed.

(** The theorem at work: resetting community 5 keeps the count of
    member 8 of community 9. *)
Lemma reset_warnings_modes_witness :
  warning_count 5 7 two_communities = 2
  /\ warning_count 5 7 (reset_warnings (Some 5) None two_communities) = 0
  /\ warning_count 9 8 (reset_warnings (Some 5) None two_communities) = 1.
Proof.
  split; [reflexivity |].
  destruct (reset_warnings_modes 5 7 9 8 None None two_communities)
    as (_ & _ & Hzero & Hother & _).
  split; [exact Hzero |].
  rewrite Hother; [reflexivity | discriminate | discriminate].
Defined.

(** Outside the ids that the callers pass: the integer 0 is falsy, so
    [reset_warnings(0)] takes the global branch and clears communities 5
    and 9 as well. *)
Lemma reset_warnings_zero_id_clears_other_communities :
  warning_count 5 7 two_communities = 2
  /\ warning_count 5 7 (reset_warnings (Some 0) None two_communities) = 0
  /\ warning_count 5 7 (reset_warnings (Some 0) None two_communities)
     <> warning_count 5 7 two_communities.
Proof. split; [reflexivity |]. split; [reflexivity | discriminate]. Qed.

End ResetFacts.

(** ** The durable store *)

Section StoreFacts.
Import Store.

Lemma save_data_returns_none w data file : (save_data w data file).2 = None.
Proof. by destruct w. Qed.

Lemma save_data_ok data file :
  save_data WriteOk data file = (Some (Doc (JObj data)), [], None).
Proof. reflexivity. Qed.

Lemma load_data_fallback_sections read_ok w data file :
  parsed_object read_ok file = None ->
  (load_data read_ok w data file).1.1 =
  match file with None => data | Some _ => default_dict end.
Proof.
  unfold load_data, parsed_object.
  destruct file as [[| j] |].
  - intros _. destruct read_ok; by destruct w.
  - destruct j; try (intros _; destruct read_ok; by destruct w).
    destruct read_ok; [discriminate | intros _; by destruct w].
  - intros _. by destruct w.
Qed.

Lemma dict_get_missing key dflt (fields : pydict) :
  dict_has key fields = false -> dict_get key dflt fields = dflt.
Proof.
  induction fields as [| [k v] rest IH]; [reflexivity |].
  cbn [dict_has dict_get]. intros [Hk Hrest]%orb_false_iff.
  rewrite Hk. by apply IH.
Qed.

(** C5, as the code has it: started from the dictionary of [__init__],
    [load_data] always ends with the three sections present. With no
    file it keeps the empty default and persists it. With a file that
    cannot be read, does not parse, or parses to something that is not
    a JSON object, it logs the error, falls back to the empty default
    and persists it. From a file that parses to an object it takes each
    section as it is, whatever its type, and an absent section defaults
    to empty; the file is left alone. *)
Theorem load_data_outcomes (read_ok : bool) (w : write_result)
        (file : option file_content) :
  has_sections (load_data read_ok w default_dict file).1.1 = true
  /\ match file, parsed_object read_ok file with
     | None, _ =>
         load_data read_ok w default_dict file =
         (default_dict, (save_data w default_dict None).1.1,
          (save_data w default_dict None).1.2
            ++ [mkLog INFO "Created new moderation data file"])
     | Some _, None =>
         load_data read_ok w default_dict file =
         (default_dict, (save_data w default_dict file).1.1,
          mkLog ERROR "Error loading data" :: (save_data w default_dict file).1.2)
     | Some _, Some loaded_data =>
         load_data read_ok w default_dict file =
         ([("enabled_servers", dict_get "enabled_servers" (JObj []) loaded_data);
           ("user_warnings", dict_get "user_warnings" (JObj []) loaded_data);
           ("moderation_log", dict_get "moderation_log" (JArr []) loaded_data)]%string,
          file, [mkLog INFO "Moderation data loaded successfully"])
     end
  /\ (save_data WriteOk default_dict file).1.1 = Some (Doc (JObj default_dict))
  /\ (forall key dflt loaded_data,
        dict_has key loaded_data = false -> dict_get key dflt loaded_data = dflt).
Proof.
  split.
  - unfold load_data.
    destruct file as [[| j] |]; [| | by destruct w].
    + destruct read_ok; by destruct w.
    + destruct read_ok; [| by destruct w].
      destruct j; by destruct w.
  - split; [| split; [reflexivity | intros; by apply dict_get_missing]].
    destruct file as [[| j] |]; cbn [parsed_object].
    + unfold load_data. destruct read_ok; by destruct w.
    + destruct j, read_ok; unfold load_data; by destruct w.
    + unfold load_data. by destruct w.
Qed.

(** The theorem at work: a file with the enablement map only; the two
    other sections come out empty. *)
Lemma load_data_outcomes_witness :
  dict_has "user_warnings" [("enabled_servers"%string, JObj [])] = false
  /\ dict_get "user_warnings" (JObj []) [("enabled_servers"%string, JObj [])]
     = JObj []
  /\ (load_data true WriteOk default_dict
        (Some (Doc (JObj [("enabled_servers"%string, JObj [])])))).1.1
     = default_dict.
Proof.
  split; [reflexivity |].
  split; [| reflexivity].
  apply (load_data_outcomes true WriteOk None). reflexivity.
Defined.

(** C5 as stated fails for a file that parses but has a number in place
    of the warning map: it is loaded as it is, nothing is logged as an
    error, and the snapshot is not well typed. *)
Lemma load_data_accepts_ill_typed_section :
  load_data true WriteOk default_dict ill_typed_file =
  ([("enabled_servers", JObj []); ("user_warnings", JInt 5);
    ("moderation_log", JArr [])]%string,
   ill_typed_file, [mkLog INFO "Moderation data loaded successfully"])
  /\ well_typed (load_data true WriteOk default_dict ill_typed_file).1.1 = false
  /\ (load_data true WriteOk default_dict ill_typed_file).1.1 <> default_dict.
Proof. split; [reflexivity |]. split; [reflexivity | discriminate]. Qed.

(** After a fallback that could be written, the next load reads the
    empty default back. *)
Lemma load_data_after_fallback (data : pydict) :
  (load_data true WriteOk data (Some Garbage)).1.2 = Some (Doc (JObj default_dict))
  /\ (load_data true WriteOk default_dict
        (load_data true WriteOk data (Some Garbage)).1.2).1.1 = default_dict.
Proof. split; reflexivity. Qed.

(** What is written by a successful save is read back section by
    section. *)
Lemma load_data_after_save (e u l : json) w w' data :
  (load_data true w' data
     (save_data w [("enabled_servers", e); ("user_warnings", u);
                   ("moderation_log", l)]%string None).1.1).1.1
  = match w with
    | WriteOk => [("enabled_servers", e); ("user_warnings", u);
                  ("moderation_log", l)]%string
    | OpenFails => data
    | WriteFails (Doc (JObj o)) =>
        [("enabled_servers", dict_get "enabled_servers" (JObj []) o);
         ("user_warnings", dict_get "user_warnings" (JObj []) o);
         ("moderation_log", dict_get "moderation_log" (JArr []) o)]%string
    | WriteFails _ => default_dict
    end.
Proof.
  destruct w as [| | [| j]]; cbn.
  - reflexivity.
  - by destruct w'.
  - by destruct w'.
  - destruct j; by destruct w'.
Qed.

(** C8, as the code has it: a write that goes through replaces the
    file by the full snapshot; a write that fails is logged as an error;
    on every path the caller gets [None], so nothing tells it whether
    the write went through; the in-memory ledger is the same after the
    call. *)
Theorem save_data_outcomes (w : write_result) (snapshot : pydict)
        (file : option file_content) (b : Pipeline.bot) :
  (save_data w snapshot file).2 = None
  /\ save_data WriteOk snapshot file = (Some (Doc (JObj snapshot)), [], None)
  /\ match w with
     | WriteOk => (save_data w snapshot file).1.2 = []
     | OpenFails =>
         (save_data w snapshot file).1 = (file, [mkLog ERROR "Error saving data"])
     | WriteFails residue =>
         (save_data w snapshot file).1 =
         (Some residue, [mkLog ERROR "Error saving data"])
     end
  /\ Pipeline.data (Pipeline.save w b) = Pipeline.data b
  /\ Pipeline.file (Pipeline.save w b) =
     (save_data w (to_dict (Pipeline.data b)) (Pipeline.file b)).1.1.
Proof.
  split; [apply save_data_returns_none |].
  split; [reflexivity |].
  split; [by destruct w |].
  split; unfold Pipeline.save; by destruct w.
Qed.

(** C8 as stated fails on the report to the caller: a write that goes
    through and one that cannot open the file return the same value. *)
Lemma save_data_failure_not_reported :
  (save_data WriteOk default_dict None).1.1 = Some (Doc (JObj default_dict))
  /\ (save_data OpenFails default_dict None).1.1 = None
  /\ (save_data OpenFails default_dict None).2 = None
  /\ (save_data WriteOk default_dict None).2 = (save_data OpenFails default_dict None).2.
Proof. repeat split. Qed.

End StoreFacts.

(** ** The enforcement pipeline *)

Section PipelineFacts.
Import EscalationSystem ModerationData Store Pipeline.

Lemma emit_nil b : emit [] b = b.
Proof. destruct b. unfold emit. cbn. by rewrite app_nil_r. Qed.

Lemma emit_emit l1 l2 b : emit l2 (emit l1 b) = emit (l1 ++ l2) b.
Proof. unfold emit. cbn. by rewrite app_assoc. Qed.

Lemma data_emit l b : data (emit l b) = data b.
Proof. reflexivity. Qed.

Lemma trace_emit l b : trace (emit l b) = trace b ++ l.
Proof. reflexivity. Qed.

Lemma trace_save w b :
  trace (save w b) =
  trace b ++ EvSave w (to_dict (data b))
          :: (EvLog <$> (save_data w (to_dict (data b)) (file b)).1.2).
Proof. unfold save. by destruct w. Qed.

Lemma data_save w b : data (save w b) = data b.
Proof. unfold save. by destruct w. Qed.

Lemma file_save w b :
  file (save w b) = (save_data w (to_dict (data b)) (file b)).1.1.
Proof. unfold save. by destruct w. Qed.

(** The test [score > NSFW_THRESHOLD] is the strict order on rationals
    against one half. *)
Lemma Qgtb_threshold (s : Q) :
  Qgtb s NSFW_THRESHOLD = true <-> (1 # 2 < s)%Q.
Proof.
  unfold Qgtb. rewrite negb_true_iff.
  assert (Hhalf : (NSFW_THRESHOLD == 1 # 2)%Q) by reflexivity.
  split.
  - intros Hle. apply Qnot_le_lt. intros H.
    assert (Qle_bool s NSFW_THRESHOLD = true) as E
        by (apply Qle_bool_iff; by rewrite Hhalf).
    congruence.
  - intros Hlt. destruct (Qle_bool s NSFW_THRESHOLD) eqn:E; [| reflexivity].
    apply Qle_bool_iff in E. rewrite Hhalf in E.
    exfalso. by apply (Qlt_not_le _ _ Hlt).
Qed.

(** The failure sentinel is never above the threshold. *)
Lemma sentinel_below_threshold (s : Q) :
  Qeq_bool s (-1) = true -> Qgtb s NSFW_THRESHOLD = false.
Proof.
  intros E. apply Qeq_bool_iff in E.
  destruct (Qgtb s NSFW_THRESHOLD) eqn:G; [| reflexivity].
  apply Qgtb_threshold in G. rewrite E in G. discriminate G.
Qed.

Lemma is_image_hint (a : attachment) : is_image a = negb (lacks_image_hint a).
Proof.
  unfold is_image, lacks_image_hint.
  destruct (content_type a) as [ct |]; [| reflexivity].
  rewrite negb_involutive.
  destruct ct as [| c ct]; reflexivity.
Qed.

(** The enforcement action, with the escalation policy resolved. *)
Lemma handle_nsfw_infraction_unfold e m score b g :
  guild m = Some g ->
  exists timeout_duration,
    calculate_timeout (warning_count g (author_id m) (data b) + 1)
    = Some timeout_duration
    /\ handle_nsfw_infraction e m score b =
       let d2 := (get_user_warnings g (author_id m)
                    (increment_warning g (author_id m) (data b)).1).1 in
       let b1 := emit (enforcement_events e (author_id m) score
                         (warning_count g (author_id m) (data b) + 1)
                         timeout_duration) (with_data d2 b) in
       if send_ok e then (save (write e) b1, Returns) else (b1, Raises).
Proof.
  intros Hg. unfold handle_nsfw_infraction. rewrite Hg.
  cbn [get_user_warnings]. rewrite increment_warning_count.
  destruct (calculate_timeout (warning_count g (author_id m) (data b) + 1))
    as [dur |] eqn:Hdur.
  - exists dur. split; [reflexivity |].
    unfold enforcement_events.
    destruct (delete_result e), (timeout_result e); cbn;
      rewrite ?emit_emit; cbn; reflexivity.
  - rewrite calculate_timeout_cases in Hdur. discriminate Hdur.
Qed.

Lemma count_events_app p l1 l2 :
  count_events p (l1 ++ l2) = (count_events p l1 + count_events p l2)%nat.
Proof. unfold count_events. by rewrite filter_app, length_app. Qed.

Lemma count_events_skip p ev l :
  p ev = false -> count_events p (ev :: l) = count_events p l.
Proof.
  intros Hp. unfold count_events. rewrite filter_cons_False; [done |].
  by rewrite Hp.
Qed.

Lemma count_events_logs p (lines : list log_line) :
  (forall l, p (EvLog l) = false) -> count_events p (EvLog <$> lines) = 0%nat.
Proof.
  intros Hp. unfold count_events.
  induction lines as [| l lines IH]; [reflexivity |].
  cbn [fmap list_fmap]. rewrite filter_cons_False; [exact IH |].
  by rewrite Hp.
Qed.

Lemma count_events_classify p e atts :
  (forall u s, p (EvClassify u s) = false) ->
  count_events p (classify_events e atts) = 0%nat.
Proof.
  intros Hp. unfold count_events, classify_events.
  induction (filter (fun a => is_image a = true) atts) as [| a l IH];
    [reflexivity |].
  cbn [fmap list_fmap]. rewrite filter_cons_False; [exact IH |].
  by rewrite Hp.
Qed.

Lemma count_timeouts_enforcement e u score wc dur :
  count_events is_timeout (enforcement_events e u score wc dur) = 1%nat.
Proof.
  unfold enforcement_events. by destruct (delete_result e), (timeout_result e).
Qed.

Lemma count_sends_enforcement e u score wc dur :
  count_events is_send (enforcement_events e u score wc dur) = 1%nat.
Proof.
  unfold enforcement_events. by destruct (delete_result e), (timeout_result e).
Qed.

(** One enforcement action times out at most one member once. *)
Lemma handle_nsfw_infraction_timeouts e m score b :
  (count_events is_timeout (trace (handle_nsfw_infraction e m score b).1)
   <= count_events is_timeout (trace b) + 1)%nat.
Proof.
  destruct (guild m) as [g |] eqn:Hg.
  - destruct (handle_nsfw_infraction_unfold e m score b g Hg)
      as (dur & _ & ->). cbv zeta.
    destruct (send_ok e); cbn [fst].
    + rewrite trace_save, trace_emit. cbn [trace with_data].
      rewrite !count_events_app, count_timeouts_enforcement.
      rewrite count_events_skip, count_events_logs by done. lia.
    + rewrite trace_emit. cbn [trace with_data].
      rewrite count_events_app, count_timeouts_enforcement. lia.
  - unfold handle_nsfw_infraction. rewrite Hg. cbn. lia.
Qed.

End PipelineFacts.

(** ** Scanning the attachments of a message *)

Section ScanFacts.
Import EscalationSystem ModerationData Store Pipeline Scenario.

Lemma classify_events_app e l1 l2 :
  classify_events e (l1 ++ l2) = classify_events e l1 ++ classify_events e l2.
Proof. unfold classify_events. by rewrite filter_app, fmap_app. Qed.

Lemma classify_events_image e a :
  is_image a = true ->
  classify_events e [a] = [EvClassify (url a) (analyze_image e (url a))].
Proof.
  intros Ha. unfold classify_events.
  rewrite filter_cons_True by done. reflexivity.
Qed.

Lemma classify_events_other e a :
  is_image a = false -> classify_events e [a] = [].
Proof.
  intros Ha. unfold classify_events.
  rewrite filter_cons_False; [reflexivity |]. by rewrite Ha.
Qed.

Lemma scan_attachments_skip e m a rest b :
  is_image a = false ->
  scan_attachments e m (a :: rest) b = scan_attachments e m rest b.
Proof. intros Ha. cbn [scan_attachments]. by rewrite Ha. Qed.

Lemma scan_attachments_sentinel e m a rest b :
  is_image a = true ->
  Qeq_bool (analyze_image e (url a)) (-1) = true ->
  scan_attachments e m (a :: rest) b =
  scan_attachments e m rest
    (emit [EvClassify (url a) (analyze_image e (url a))] b).
Proof. intros Ha Hs. cbn [scan_attachments]. by rewrite Ha, Hs. Qed.

(** An attachment that is not flagged costs at most its classifier call. *)
Lemma scan_attachments_unflagged_head e m a rest b :
  flagged e a = false ->
  scan_attachments e m (a :: rest) b =
  scan_attachments e m rest (emit (classify_events e [a]) b).
Proof.
  unfold flagged. intros Hf. cbn [scan_attachments].
  destruct (is_image a) eqn:Ha.
  - rewrite classify_events_image by done.
    cbn [andb] in Hf. rewrite Hf.
    by destruct (Qeq_bool (analyze_image e (url a)) (-1)).
  - by rewrite classify_events_other, emit_nil.
Qed.

Lemma scan_attachments_flagged_head e m a rest b :
  flagged e a = true ->
  scan_attachments e m (a :: rest) b =
  handle_nsfw_infraction e m (analyze_image e (url a))
    (emit (classify_events e [a]) b).
Proof.
  unfold flagged. intros Hf. apply andb_true_iff in Hf as [Ha Hs].
  cbn [scan_attachments]. rewrite Ha, classify_events_image by done.
  destruct (Qeq_bool (analyze_image e (url a)) (-1)) eqn:E.
  - apply sentinel_below_threshold in E. congruence.
  - by rewrite Hs.
Qed.

Lemma scan_attachments_unflagged e m atts b :
  forallb (fun a => negb (flagged e a)) atts = true ->
  scan_attachments e m atts b = (emit (classify_events e atts) b, Returns).
Proof.
  revert b. induction atts as [| a rest IH]; intros b Hall.
  - cbn. by rewrite emit_nil.
  - cbn [forallb] in Hall. apply andb_true_iff in Hall as [Ha Hrest].
    apply negb_true_iff in Ha.
    rewrite scan_attachments_unflagged_head, IH, emit_emit by done.
    by rewrite <- classify_events_app.
Qed.

Lemma scan_attachments_first_flagged e m pre a post b :
  forallb (fun x => negb (flagged e x)) pre = true ->
  flagged e a = true ->
  scan_attachments e m (pre ++ a :: post) b =
  handle_nsfw_infraction e m (analyze_image e (url a))
    (emit (classify_events e (pre ++ [a])) b).
Proof.
  revert b. induction pre as [| x pre IH]; intros b Hpre Ha.
  - by apply scan_attachments_flagged_head.
  - cbn [forallb] in Hpre. apply andb_true_iff in Hpre as [Hx Hpre].
    apply negb_true_iff in Hx. cbn [app].
    rewrite scan_attachments_unflagged_head, IH, emit_emit by done.
    by rewrite <- classify_events_app.
Qed.

(** Every list of attachments has no flagged one, or a first one. *)
Lemma first_flagged_split e (atts : list attachment) :
  forallb (fun a => negb (flagged e a)) atts = true
  \/ exists pre a post,
      atts = pre ++ a :: post
      /\ forallb (fun x => negb (flagged e x)) pre = true
      /\ flagged e a = true.
Proof.
  induction atts as [| x rest IH]; [by left |].
  destruct (flagged e x) eqn:Hx.
  - right. by exists [], x, rest.
  - destruct IH as [Hall | (pre & a & post & -> & Hpre & Ha)].
    + left. cbn. by rewrite Hx.
    + right. exists (x :: pre), a, post. cbn. by rewrite Hx.
Qed.

Lemma scan_attachments_timeouts e m atts b :
  (count_events is_timeout (trace (scan_attachments e m atts b).1)
   <= count_events is_timeout (trace b) + 1)%nat.
Proof.
  destruct (first_flagged_split e atts)
    as [Hall | (pre & a & post & -> & Hpre & Ha)].
  - rewrite scan_attachments_unflagged by done. cbn [fst].
    rewrite trace_emit, count_events_app, count_events_classify by done. lia.
  - rewrite scan_attachments_first_flagged by done.
    etrans; [apply handle_nsfw_infraction_timeouts |].
    rewrite trace_emit, count_events_app, count_events_classify by done. lia.
Qed.

Lemma on_message_scans e m b g :
  author_bot m = false -> guild m = Some g ->
  (is_enabled g (data (process_commands e m b))).2 = true ->
  on_message e m b =
  scan_attachments e m (attachments m)
    (with_data (is_enabled g (data (process_commands e m b))).1
               (process_commands e m b)).
Proof.
  intros Hbot Hg Hen. unfold on_message. rewrite Hbot, Hg.
  cbn [is_enabled snd fst] in *. by rewrite Hen.
Qed.

End ScanFacts.

(** ** The claims about the pipeline *)

Section EnforcementClaims.
Import EscalationSystem ModerationData Store Pipeline Scenario.

(** C1, as the code has it: for a violation by member [author_id m] of
    community [g], [handle_nsfw_infraction] raises the member's warning
    count by one whatever the deletion, timeout and notification calls
    answer, then attempts the deletion, the timeout and the
    notification, and, once the notification is sent, ends with
    [save_data] on the full snapshot. No audit entry is appended:
    [moderation_log] is left as it was. *)
Theorem handle_nsfw_infraction_effects
        (e : env) (m : message) (score : Q) (b : bot) (g : Z) :
  guild m = Some g ->
  warning_count g (author_id m) (data (handle_nsfw_infraction e m score b).1)
  = warning_count g (author_id m) (data b) + 1
  /\ moderation_log (data (handle_nsfw_infraction e m score b).1)
     = moderation_log (data b)
  /\ (handle_nsfw_infraction e m score b).2
     = (if send_ok e then Returns else Raises)
  /\ file (handle_nsfw_infraction e m score b).1
     = (if send_ok e
        then (save_data (write e)
                (to_dict (data (handle_nsfw_infraction e m score b).1))
                (file b)).1.1
        else file b)
  /\ exists timeout_duration,
      calculate_timeout (warning_count g (author_id m) (data b) + 1)
      = Some timeout_duration
      /\ trace (handle_nsfw_infraction e m score b).1
         = trace b
           ++ enforcement_events e (author_id m) score
                (warning_count g (author_id m) (data b) + 1) timeout_duration
           ++ (if send_ok e
               then EvSave (write e)
                      (to_dict (data (handle_nsfw_infraction e m score b).1))
                    :: (EvLog <$> (save_data (write e)
                                     (to_dict (data (handle_nsfw_infraction e m score b).1))
                                     (file b)).1.2)
               else []).
Proof.
  intros Hg.
  destruct (handle_nsfw_infraction_unfold e m score b g Hg)
    as (dur & Hdur & ->). cbv zeta.
  destruct (send_ok e); cbn [fst snd].
  - rewrite !data_save, !data_emit. cbn [data with_data get_user_warnings fst].
    split; [apply increment_warning_count |].
    split; [reflexivity |]. split; [reflexivity |].
    split; [by rewrite file_save |].
    exists dur. split; [exact Hdur |].
    rewrite trace_save, trace_emit. cbn [trace with_data file data emit].
    by rewrite <- app_assoc.
  - rewrite !data_emit. cbn [data with_data get_user_warnings fst].
    split; [apply increment_warning_count |].
    split; [reflexivity |]. split; [reflexivity |].
    split; [reflexivity |].
    exists dur. split; [exact Hdur |].
    rewrite trace_emit. cbn [trace with_data]. by rewrite app_nil_r.
Qed.

(** The theorem at work where the platform refuses both actions: the
    count still goes from 0 to 1. *)
Lemma handle_nsfw_infraction_effects_witness :
  guild (post [image "nsfw"]) = Some 5
  /\ warning_count 5 7
       (data (handle_nsfw_infraction forbidden (post [image "nsfw"]) 0.8 enabled_bot).1)
     = warning_count 5 7 (data enabled_bot) + 1.
Proof.
  split; [reflexivity |].
  apply (handle_nsfw_infraction_effects forbidden (post [image "nsfw"])
           0.8 enabled_bot 5 eq_refl).
Defined.

(** C1 as stated fails on the audit entry: after a member with no
    warnings posts an image scoring 0.8, the count is 1, the timeout is
    10 minutes, and the audit sequence is still empty, in memory and in
    the saved snapshot. *)
Lemma violation_appends_no_audit_entry :
  warning_count 5 7
    (data (on_message cooperative (post [image "nsfw"]) enabled_bot).1) = 1
  /\ In (EvTimeout 7 (timedelta_minutes 10) 0.8 Succeeds)
        (trace (on_message cooperative (post [image "nsfw"]) enabled_bot).1)
  /\ moderation_log
       (data (on_message cooperative (post [image "nsfw"]) enabled_bot).1) = []
  /\ file (on_message cooperative (post [image "nsfw"]) enabled_bot).1
     = Some (Doc (JObj [("enabled_servers", JObj [("5", JBool true)]);
                        ("user_warnings", JObj [("5", JObj [("7", JInt 1)])]);
                        ("moderation_log", JArr [])]%string)).
Proof.
  split; [by vm_compute |].
  split; [vm_compute; tauto |].
  split; by vm_compute.
Qed.

(** C4, as the code has it: for a message whose author is not a bot
    account, in an enabled community, the attachments are scanned in
    order; an attachment is a violation exactly when it is scanned and its
    score is strictly above one half; the first such attachment gets the
    enforcement action with its own score and ends the scan, the
    attachments before it having cost their classifier calls only; with
    no such attachment nothing but classifier calls happens; so a
    message leads to at most one timeout. *)
Theorem on_message_first_violation_wins
        (e : env) (m : message) (b : bot) (g : Z) :
  author_bot m = false ->
  guild m = Some g ->
  (is_enabled g (data (process_commands e m b))).2 = true ->
  (forall a, flagged e a = true
             <-> is_image a = true /\ (1 # 2 < analyze_image e (url a))%Q)
  /\ (forall pre a post,
        attachments m = pre ++ a :: post ->
        forallb (fun x => negb (flagged e x)) pre = true ->
        flagged e a = true ->
        on_message e m b =
        handle_nsfw_infraction e m (analyze_image e (url a))
          (emit (classify_events e (pre ++ [a]))
             (with_data (is_enabled g (data (process_commands e m b))).1
                        (process_commands e m b))))
  /\ (forallb (fun x => negb (flagged e x)) (attachments m) = true ->
      on_message e m b =
      (emit (classify_events e (attachments m))
         (with_data (is_enabled g (data (process_commands e m b))).1
                    (process_commands e m b)), Returns))
  /\ (count_events is_timeout (trace (on_message e m b).1)
      <= count_events is_timeout (trace (process_commands e m b)) + 1)%nat.
Proof.
  intros Hbot Hg Hen.
  rewrite (on_message_scans e m b g Hbot Hg Hen).
  split.
  { intros a. unfold flagged. rewrite andb_true_iff, Qgtb_threshold. tauto. }
  split.
  { intros pre a post -> Hpre Ha. by apply scan_attachments_first_flagged. }
  split.
  { intros Hall. by apply scan_attachments_unflagged. }
  etrans; [apply scan_attachments_timeouts |]. reflexivity.
Qed.

(** C4 as stated fails for a message whose author is a bot account: in
    an enabled community its image scoring 0.8 is not even classified, and
    no enforcement action follows. *)
Lemma bot_author_is_not_scanned :
  (is_enabled 5 (data enabled_bot)).2 = true
  /\ flagged cooperative (image "nsfw") = true
  /\ on_message cooperative (bot_post [image "nsfw"]) enabled_bot
     = (enabled_bot, Returns)
  /\ trace (on_message cooperative (bot_post [image "nsfw"]) enabled_bot).1 = [].
Proof. repeat split. Qed.

(** The theorem at work: a document, then two flagged images; the action
    uses the score of the first flagged image. *)
Lemma on_message_first_violation_wins_witness :
  on_message cooperative
    (post [document "doc"; image "nsfw"; image "worse"]) enabled_bot
  = handle_nsfw_infraction cooperative
      (post [document "doc"; image "nsfw"; image "worse"]) 0.8
      (emit [EvClassify "nsfw" 0.8]
         (with_data (is_enabled 5 (data enabled_bot)).1 enabled_bot)).
Proof.
  destruct (on_message_first_violation_wins cooperative
              (post [document "doc"; image "nsfw"; image "worse"])
              enabled_bot 5 eq_refl eq_refl eq_refl) as (_ & Hfirst & _).
  apply (Hfirst [document "doc"] (image "nsfw") [image "worse"]);
    reflexivity.
Defined.

(** C6: an image for which the classifier returns the sentinel [-1] is
    no violation and costs exactly one classifier call (no retry); the
    scan goes on with the next
    attachment from an unchanged ledger and file; when it is the only
    attachment the run ends there, with no warning and nothing appended
    to the audit sequence. *)
Theorem classifier_failure_skips_attachment
        (e : env) (m : message) (a : attachment) (rest : list attachment)
        (b : bot) :
  is_image a = true ->
  Qeq_bool (analyze_image e (url a)) (-1) = true ->
  scan_attachments e m (a :: rest) b =
  scan_attachments e m rest
    (emit [EvClassify (url a) (analyze_image e (url a))] b)
  /\ data (emit [EvClassify (url a) (analyze_image e (url a))] b) = data b
  /\ file (emit [EvClassify (url a) (analyze_image e (url a))] b) = file b
  /\ count_events (is_classify_of (url a))
       [EvClassify (url a) (analyze_image e (url a))] = 1%nat
  /\ scan_attachments e m [a] b =
     (emit [EvClassify (url a) (analyze_image e (url a))] b, Returns)
  /\ flagged e a = false.
Proof.
  intros Ha Hs.
  split; [by apply scan_attachments_sentinel |].
  split; [reflexivity |]. split; [reflexivity |].
  split.
  { unfold count_events. rewrite filter_cons_True; [reflexivity |].
    cbn. apply String.eqb_refl. }
  split; [by rewrite scan_attachments_sentinel |].
  unfold flagged. by rewrite (sentinel_below_threshold _ Hs), andb_false_r.
Qed.

(** The theorem at work: the only attachment cannot be classified. *)
Lemma classifier_failure_skips_attachment_witness :
  scan_attachments cooperative (post [image "broken"]) [image "broken"] enabled_bot
  = (emit [EvClassify "broken" (-1)] enabled_bot, Returns).
Proof.
  apply (classifier_failure_skips_attachment cooperative
           (post [image "broken"]) (image "broken") [] enabled_bot);
    reflexivity.
Defined.

(** C10: an attachment with no content-type hint, or with a hint that
    does not contain ["image"], is never handed to the classifier and
    changes nothing: the scan of a list is the scan of its attachments
    that have an image hint. *)
Theorem non_image_attachment_ignored
        (e : env) (m : message) (atts : list attachment) (b : bot) :
  (forall a rest b',
      lacks_image_hint a = true ->
      scan_attachments e m (a :: rest) b' = scan_attachments e m rest b')
  /\ scan_attachments e m atts b =
     scan_attachments e m
       (filter (fun a => lacks_image_hint a = false) atts) b
  /\ (forallb lacks_image_hint atts = true ->
      scan_attachments e m atts b = (b, Returns))
  /\ classify_events e atts =
     (fun a => EvClassify (url a) (analyze_image e (url a)))
       <$> filter (fun a => lacks_image_hint a = false) atts
  /\ (forallb lacks_image_hint (attachments m) = true ->
      (on_message e m b).2 = Returns
      /\ trace (on_message e m b).1 = trace (process_commands e m b)
      /\ file (on_message e m b).1 = file (process_commands e m b)
      /\ moderation_log (data (on_message e m b).1)
         = moderation_log (data (process_commands e m b))
      /\ (forall g u, warning_count g u (data (on_message e m b).1)
                      = warning_count g u (data (process_commands e m b)))).
Proof.
  assert (Hskip : forall a rest b',
             lacks_image_hint a = true ->
             scan_attachments e m (a :: rest) b' = scan_attachments e m rest b').
  { intros a rest b' Ha. apply scan_attachments_skip.
    by rewrite is_image_hint, Ha. }
  split; [exact Hskip |].
  split.
  { revert b. induction atts as [| a rest IH]; intros b; [reflexivity |].
    destruct (lacks_image_hint a) eqn:Ha.
    - rewrite Hskip by done. rewrite filter_cons_False; [apply IH |].
      by rewrite Ha.
    - rewrite filter_cons_True by done.
      cbn [scan_attachments]. rewrite is_image_hint, Ha. cbn [negb].
      by rewrite !IH. }
  assert (Hnone : forall l b', forallb lacks_image_hint l = true ->
                               scan_attachments e m l b' = (b', Returns)).
  { intros l. induction l as [| a rest IH]; intros b' Hall; [reflexivity |].
    cbn [forallb] in Hall. apply andb_true_iff in Hall as [Ha Hrest].
    rewrite Hskip by done. by apply IH. }
  split; [apply Hnone |].
  split.
  { unfold classify_events. f_equal.
    induction atts as [| a rest IH]; [reflexivity |].
    destruct (lacks_image_hint a) eqn:Ha.
    - rewrite !filter_cons_False; [exact IH | by rewrite Ha |].
      by rewrite is_image_hint, Ha.
    - rewrite !filter_cons_True; [by rewrite IH | done |].
      by rewrite is_image_hint, Ha. }
  intros Hall. unfold on_message.
  destruct (author_bot m); [by repeat split |].
  destruct (guild m) as [g0 |]; [| by repeat split].
  cbn [is_enabled].
  destruct (default false (servers_of (data (process_commands e m b)) !! str g0));
    [rewrite (Hnone _ _ Hall) |]; by repeat split.
Qed.

(** The theorem at work: a PDF and an attachment without hint whose
    resources would score 0.8. *)
Lemma non_image_attachment_ignored_witness :
  lacks_image_hint (document "nsfw") = true
  /\ lacks_image_hint (untyped "nsfw") = true
  /\ scan_attachments cooperative (post [document "nsfw"; untyped "nsfw"])
       [document "nsfw"; untyped "nsfw"] enabled_bot
     = (enabled_bot, Returns).
Proof.
  split; [reflexivity |]. split; [reflexivity |].
  apply (non_image_attachment_ignored cooperative
           (post [document "nsfw"; untyped "nsfw"])
           [document "nsfw"; untyped "nsfw"] enabled_bot).
  reflexivity.
Defined.

End EnforcementClaims.

(** ** Concurrent pipeline instances *)

Section SchedulerFacts.
Import EscalationSystem ModerationData Store Pipeline Scheduler.

Lemma warning_count_get_user_warnings g u g' u' d :
  warning_count g u (get_user_warnings g' u' d).1 = warning_count g u d.
Proof. reflexivity. Qed.

(** One resumption either is the first segment of an instance for the
    key, and then the count grows by one, or leaves the count alone. *)
Lemma with_data_count g u g0 u0 b :
  warning_count g u
    (data (with_data
             (get_user_warnings g0 u0 (increment_warning g0 u0 (data b)).1).1 b))
  = warning_count g u (data b) + (if (g0 =? g) && (u0 =? u) then 1 else 0).
Proof.
  cbn [data with_data]. rewrite warning_count_get_user_warnings.
  destruct (Z.eqb_spec g0 g) as [-> | Hne]; cbn [andb].
  - destruct (Z.eqb_spec u0 u) as [-> | Hne'].
    + apply increment_warning_count.
    + rewrite increment_warning_stored_other; [lia | congruence].
  - rewrite increment_warning_stored_other; [lia | congruence].
Qed.

Lemma resume_count g u t b :
  warning_count g u (data (resume t b).2) + pending_weight g u (resume t b).1
  = warning_count g u (data b) + pending_weight g u t.
Proof.
  unfold pending_weight, pending_for, for_key.
  destruct t as [e m score p].
  destruct p; unfold resume; cbn [t_env t_msg t_score t_pc].
  - destruct (guild m) as [g0 |] eqn:Hg.
    + pose proof (with_data_count g u g0 (author_id m) b) as Hcount.
      destruct (get_user_warnings g0 (author_id m)
                  (increment_warning g0 (author_id m) (data b)).1)
        as [d2 wc] eqn:Hget.
      cbn [fst] in Hcount.
      destruct (calculate_timeout wc);
        cbn [at_pc t_msg t_pc snd fst]; rewrite Hg, Hcount, andb_false_r;
        destruct ((g0 =? g) && (author_id m =? u)); cbn [andb]; lia.
    + cbn [at_pc t_msg t_pc snd fst]. by rewrite Hg.
  - destruct (safe_delete_message _); cbn [at_pc t_msg t_pc snd fst].
    by rewrite !andb_false_r.
  - destruct (safe_timeout_user _); cbn [at_pc t_msg t_pc snd fst].
    by rewrite !andb_false_r.
  - destruct (send_ok e); cbn [at_pc t_msg t_pc snd fst];
      by rewrite !andb_false_r.
  - destruct (write e); cbn [at_pc t_msg t_pc snd fst];
      rewrite ?data_save; by rewrite !andb_false_r.
  - destruct (save_data _ _ _) as [[? ?] ?]; cbn [at_pc t_msg t_pc snd fst].
    by rewrite !andb_false_r.
  - reflexivity.
Qed.

Lemma count_tasks_cons p (t : task) pool :
  count_tasks p (t :: pool) = (if p t then 1 else 0) + count_tasks p pool.
Proof.
  unfold count_tasks. destruct (p t) eqn:Hp.
  - rewrite filter_cons_True by done. cbn [length]. lia.
  - rewrite filter_cons_False; [lia |]. by rewrite Hp.
Qed.

Lemma count_tasks_insert p (pool : list task) i t t' :
  pool !! i = Some t ->
  count_tasks p (<[i := t']> pool) + (if p t then 1 else 0)
  = count_tasks p pool + (if p t' then 1 else 0).
Proof.
  revert i. induction pool as [| x pool IH]; intros i Hi; [done |].
  destruct i as [| i].
  - change (Some x = Some t) in Hi. injection Hi as ->.
    change (<[0%nat := t']> (t :: pool)) with (t' :: pool).
    rewrite !count_tasks_cons. lia.
  - change (pool !! i = Some t) in Hi.
    change (<[S i := t']> (x :: pool)) with (x :: <[i := t']> pool).
    rewrite !count_tasks_cons. specialize (IH i Hi). lia.
Qed.

(** Whatever the schedule, the count plus the instances for the key that
    have not started yet is constant. *)
Lemma run_count g u schedule pool b :
  warning_count g u (data (run schedule pool b).2)
  + count_tasks (pending_for g u) (run schedule pool b).1
  = warning_count g u (data b) + count_tasks (pending_for g u) pool.
Proof.
  revert pool b. induction schedule as [| i rest IH]; intros pool b;
    [reflexivity |].
  cbn [run]. destruct (pool !! i) as [t |] eqn:Hi; [| apply IH].
  destruct (resume t b) as [t' b'] eqn:Hr. rewrite IH.
  pose proof (resume_count g u t b) as Hstep. rewrite Hr in Hstep.
  cbn [fst snd] in Hstep. unfold pending_weight in Hstep.
  pose proof (count_tasks_insert (pending_for g u) pool i t t' Hi). lia.
Qed.

Lemma count_tasks_all p (pool : list task) :
  Forall (fun t => p t = true) pool ->
  count_tasks p pool = Z.of_nat (length pool).
Proof.
  induction 1 as [| t pool Ht _ IH]; [reflexivity |].
  rewrite count_tasks_cons, IH, Ht. cbn [length]. lia.
Qed.

Lemma count_tasks_finished g u (pool : list task) :
  forallb finished pool = true -> count_tasks (pending_for g u) pool = 0.
Proof.
  induction pool as [| t pool IH]; [reflexivity |].
  cbn [forallb]. intros [Ht Hpool]%andb_true_iff.
  rewrite count_tasks_cons, IH by done.
  unfold pending_for, finished in *.
  destruct (t_pc t); try discriminate. by rewrite andb_false_r.
Qed.

Lemma resume_steps_left t b :
  (steps_left (t_pc (resume t b).1) <= steps_left (t_pc t) - 1)%nat.
Proof.
  unfold resume. destruct t as [e m score p]. cbn [t_env t_msg t_score t_pc].
  destruct p; cbn [steps_left].
  - destruct (guild m); [| cbn; lia].
    cbn [get_user_warnings]. destruct (calculate_timeout _); cbn; lia.
  - destruct (safe_delete_message _); cbn; lia.
  - destruct (safe_timeout_user _); cbn; lia.
  - destruct (send_ok e); cbn; lia.
  - destruct (write e); cbn; lia.
  - destruct (save_data _ _ _) as [[? ?] ?]; cbn; lia.
  - cbn. lia.
Qed.

Lemma run_length schedule pool b :
  length (run schedule pool b).1 = length pool.
Proof.
  revert pool b. induction schedule as [| i rest IH]; intros pool b;
    [reflexivity |].
  cbn [run]. destruct (pool !! i) as [t |]; [| apply IH].
  destruct (resume t b) as [t' b']. by rewrite IH, length_insert.
Qed.

(** Every resumption brings a task closer to its end. *)
Lemma run_steps_left schedule pool b i t :
  pool !! i = Some t ->
  exists t', (run schedule pool b).1 !! i = Some t'
             /\ (steps_left (t_pc t')
                 <= steps_left (t_pc t) - count_occ Nat.eq_dec schedule i)%nat.
Proof.
  revert pool b t. induction schedule as [| j rest IH]; intros pool b t Hi.
  - exists t. split; [exact Hi | cbn; lia].
  - cbn [run count_occ].
    destruct (pool !! j) as [tj |] eqn:Hj.
    + destruct (resume tj b) as [tj' b'] eqn:Hr.
      destruct (Nat.eq_dec j i) as [-> | Hne].
      * assert (tj = t) as -> by congruence.
        destruct (IH (<[i := tj']> pool) b' tj') as (t' & Ht' & Hle).
        { apply list_lookup_insert_eq. by eapply lookup_lt_Some. }
        exists t'. split; [exact Ht' |].
        pose proof (resume_steps_left t b) as Hstep. rewrite Hr in Hstep.
        cbn [fst] in Hstep. lia.
      * destruct (IH (<[j := tj']> pool) b' t) as (t' & Ht' & Hle).
        { by rewrite list_lookup_insert_ne. }
        exists t'. split; [exact Ht' | exact Hle].
    + destruct (Nat.eq_dec j i) as [-> | Hne]; [congruence |].
      by apply IH.
Qed.

Lemma run_fair_finishes schedule pool b :
  (forall i, (i < length pool)%nat -> (6 <= count_occ Nat.eq_dec schedule i)%nat) ->
  forallb finished (run schedule pool b).1 = true.
Proof.
  intros Hfair. apply forallb_forall. intros t' Hin.
  apply list_elem_of_In, list_elem_of_lookup in Hin as [i Hi].
  assert (i < length pool)%nat as Hlt.
  { rewrite <- (run_length schedule pool b). by eapply lookup_lt_Some. }
  destruct (lookup_lt_is_Some_2 pool i Hlt) as [t Ht].
  destruct (run_steps_left schedule pool b i t Ht) as (t'' & Ht'' & Hle).
  assert (t'' = t') as -> by congruence.
  specialize (Hfair i Hlt). unfold finished.
  destruct (t_pc t'); cbn [steps_left] in Hle; try reflexivity;
    destruct (t_pc t); cbn [steps_left] in Hle; lia.
Qed.

End SchedulerFacts.

Section ConcurrencyClaims.
Import EscalationSystem ModerationData Store Pipeline Scheduler.

Lemma run_single rest (t : task) b :
  run (0%nat :: rest) [t] b = run rest [(resume t b).1] (resume t b).2.
Proof.
  cbn [run]. change ([t] !! 0%nat) with (Some t). cbv beta iota.
  destruct (resume t b) as [t' b']. reflexivity.
Qed.

(** The segments run back to back are [handle_nsfw_infraction]. *)
Lemma run_alone e m score b :
  (run (repeat 0%nat 6) [start e m score] b).2
  = (handle_nsfw_infraction e m score b).1
  /\ t_pc <$> (run (repeat 0%nat 6) [start e m score] b).1
     = [Finished (handle_nsfw_infraction e m score b).2].
Proof.
  cbn [repeat]. rewrite !run_single. cbn [run].
  unfold handle_nsfw_infraction, start.
  destruct e as [classify dr tr sent wr commands].
  destruct m as [is_bot user_id [g |] atts];
    cbn [resume t_env t_msg t_score t_pc at_pc fst snd guild author_id
         delete_result timeout_result send_ok write]; [| by split].
  destruct (get_user_warnings g user_id
              (increment_warning g user_id (data b)).1) as [d2 wc].
  destruct (calculate_timeout wc) as [dur |];
    cbn [resume t_env t_msg t_score t_pc at_pc fst snd guild author_id
         delete_result timeout_result send_ok write]; [| by split].
  destruct dr, tr, sent, wr;
    cbn [resume t_env t_msg t_score t_pc at_pc fst snd guild author_id
         delete_result timeout_result send_ok write
         safe_delete_message safe_timeout_user save save_data];
    split; reflexivity.
Qed.

(** C9: the pipeline instances for one (community, member) key,
    interleaved at their awaits in any order with each other and with
    instances for other keys, never lose an increment: at every moment
    the count is the initial count plus the number of instances for the
    key that have started, and once all instances have finished it is the
    initial count plus their number [k]; a schedule that resumes every
    instance six times finishes them all. *)
Theorem concurrent_increments_all_counted
        (g u : Z) (pool : list task) (schedule : list nat) (b : bot) :
  warning_count g u (data (run schedule pool b).2)
  + count_tasks (pending_for g u) (run schedule pool b).1
  = warning_count g u (data b) + count_tasks (pending_for g u) pool
  /\ (forallb finished (run schedule pool b).1 = true ->
      warning_count g u (data (run schedule pool b).2)
      = warning_count g u (data b) + count_tasks (pending_for g u) pool)
  /\ (Forall (fun t => pending_for g u t = true) pool ->
      count_tasks (pending_for g u) pool = Z.of_nat (length pool))
  /\ ((forall i, (i < length pool)%nat ->
                 (6 <= count_occ Nat.eq_dec schedule i)%nat) ->
      forallb finished (run schedule pool b).1 = true).
Proof.
  pose proof (run_count g u schedule pool b) as Hinv.
  split; [exact Hinv |].
  split.
  { intros Hdone. rewrite (count_tasks_finished g u _ Hdone) in Hinv. lia. }
  split; [apply count_tasks_all | apply run_fair_finishes].
Qed.

(** The theorem at work: two violations by the same member, switched at
    every await, leave the count at 2. *)
Lemma concurrent_increments_all_counted_witness :
  Forall (fun t => pending_for 5 7 t = true) two_violations
  /\ forallb finished (run alternating two_violations Scenario.enabled_bot).1 = true
  /\ warning_count 5 7 (data (run alternating two_violations Scenario.enabled_bot).2)
     = 2.
Proof.
  assert (Hpool : Forall (fun t => pending_for 5 7 t = true) two_violations)
    by (repeat constructor).
  split; [exact Hpool |].
  split; [by vm_compute |].
  destruct (concurrent_increments_all_counted 5 7 two_violations alternating
              Scenario.enabled_bot) as (_ & Hdone & Hk & _).
  rewrite Hdone, Hk; [reflexivity | exact Hpool | by vm_compute].
Defined.

End ConcurrencyClaims.

(** ** The scenarios of the specification, run on the model *)

Section Scenarios.
Import EscalationSystem ModerationData Store Pipeline Scenario.

(** A member with three warnings posts an image scoring 0.8: the count
    becomes 4, the timeout is 6 hours and the notification carries the
    maximum-escalation marker. *)
Lemma fourth_violation_reaches_maximum :
  warning_count 5 7 (data (on_message cooperative (post [image "nsfw"]) warned_bot).1) = 4
  /\ trace (on_message cooperative (post [image "nsfw"]) warned_bot).1
     = [EvClassify "nsfw" 0.8;
        EvDelete Succeeds;
        EvTimeout 7 (timedelta_hours 6) 0.8 Succeeds;
        EvSend (build_embed 7 0.8 4 (timedelta_hours 6) true true) true;
        EvSave WriteOk (to_dict (data (on_message cooperative (post [image "nsfw"])
                                         warned_bot).1))]
  /\ embed_maximum_escalation (build_embed 7 0.8 4 (timedelta_hours 6) true true) = true
  /\ format_duration (timedelta_hours 6) = "6h 0m"%string.
Proof. repeat split; by vm_compute. Qed.

(** Two flagged images: one enforcement action, with the score of the
    first, and no classifier call for the second. *)
Lemma two_flagged_attachments_one_action :
  trace (on_message cooperative (post [image "nsfw"; image "worse"]) enabled_bot).1
  = [EvClassify "nsfw" 0.8;
     EvDelete Succeeds;
     EvTimeout 7 (timedelta_minutes 10) 0.8 Succeeds;
     EvSend (build_embed 7 0.8 1 (timedelta_minutes 10) true true) true;
     EvSave WriteOk (to_dict (data (on_message cooperative
                                      (post [image "nsfw"; image "worse"])
                                      enabled_bot).1))].
Proof. by vm_compute. Qed.

(** The platform refuses deletion and timeout: both refusals are logged
    and shown in the notification, and the warning is counted and saved
    all the same. *)
Lemma refused_actions_still_count :
  warning_count 5 7 (data (on_message forbidden (post [image "nsfw"]) enabled_bot).1) = 1
  /\ trace (on_message forbidden (post [image "nsfw"]) enabled_bot).1
     = [EvClassify "nsfw" 0.8;
        EvDelete RaisesForbidden;
        EvLog (mkLog WARNING "Missing permissions to delete message");
        EvTimeout 7 (timedelta_minutes 10) 0.8 RaisesForbidden;
        EvLog (mkLog WARNING "Missing permissions to timeout");
        EvSend (build_embed 7 0.8 1 (timedelta_minutes 10) false false) true;
        EvSave WriteOk (to_dict (data (on_message forbidden (post [image "nsfw"])
                                         enabled_bot).1))].
Proof. split; by vm_compute. Qed.

(** The classifier fails on the first image and flags the second. *)
Lemma failure_then_violation :
  trace (on_message cooperative (post [image "broken"; image "nsfw"]) enabled_bot).1
  = [EvClassify "broken" (-1);
     EvClassify "nsfw" 0.8;
     EvDelete Succeeds;
     EvTimeout 7 (timedelta_minutes 10) 0.8 Succeeds;
     EvSend (build_embed 7 0.8 1 (timedelta_minutes 10) true true) true;
     EvSave WriteOk (to_dict (data (on_message cooperative
                                      (post [image "broken"; image "nsfw"])
                                      enabled_bot).1))].
Proof. by vm_compute. Qed.

End Scenarios.

(** * Further properties of the code *)

(** ** Escalation policy and its rendering *)

Section EscalationExtras.
Import EscalationSystem Pipeline.

(** The policy is monotone from count 1 on: more warnings never shorten
    the timeout. *)
Lemma calculate_timeout_monotone_witness :
  exists t t', calculate_timeout 2 = Some t /\ calculate_timeout 7 = Some t'
               /\ t <= t'.
Proof.
  exists (timedelta_hours 1), (timedelta_hours 6).
  split; [reflexivity |]. split; [reflexivity |].
  apply (calculate_timeout_monotone 2 7); [lia | lia | reflexivity | reflexivity].
Defined.

Lemma calculate_timeout_bounded_witness :
  calculate_timeout 3 = Some (timedelta_hours 3)
  /\ 0 < timedelta_hours 3 <= MAX_TIMEOUT_DURATION.
Proof.
  split; [reflexivity |].
  apply (calculate_timeout_bounded 3). reflexivity.
Defined.

Lemma format_duration_split (h m s : Z) :
  0 <= m < 60 -> 0 <= s < 60 ->
  (timedelta_hours h + timedelta_minutes m + s) / 3600 = h
  /\ ((timedelta_hours h + timedelta_minutes m + s) mod 3600) / 60 = m.
Proof.
  intros Hm Hs. unfold timedelta_hours, timedelta_minutes.
  assert (Hdiv : (3600 * h + 60 * m + s) / 3600 = h).
  { symmetry. apply (Z.div_unique _ _ _ (60 * m + s)); lia. }
  assert (Hmod : (3600 * h + 60 * m + s) mod 3600 = 60 * m + s).
  { symmetry. apply (Z.mod_unique _ _ h); lia. }
  rewrite Hdiv, Hmod. split; [reflexivity |].
  symmetry. apply (Z.div_unique _ _ _ s); lia.
Qed.

(** X3: [format_duration] shows the whole hours and the whole minutes of a
    duration and drops the seconds; under one hour it shows the minutes
    alone. *)
Theorem format_duration_components (h m s : Z) :
  0 <= h -> 0 <= m < 60 -> 0 <= s < 60 ->
  format_duration (timedelta_hours h + timedelta_minutes m + s)
  = if 0 <? h
    then (pretty h +:+ "h " +:+ pretty m +:+ "m")%string
    else (pretty m +:+ "m")%string.
Proof.
  intros Hh Hm Hs. unfold format_duration.
  destruct (format_duration_split h m s Hm Hs) as [-> ->]. reflexivity.
Qed.

Lemma format_duration_components_witness :
  format_duration (timedelta_hours 1 + timedelta_minutes 30 + 59) = "1h 30m"%string
  /\ format_duration (timedelta_hours 0 + timedelta_minutes 10 + 0) = "10m"%string.
Proof.
  split.
  - rewrite (format_duration_components 1 30 59); [reflexivity | lia | lia | lia].
  - rewrite (format_duration_components 0 10 0); [reflexivity | lia | lia | lia].
Defined.

(** X4: From the first warning on, the notification carries the
    maximum-escalation marker exactly when the timeout is the maximum
    one. *)
Theorem maximum_escalation_marker (user_id : Z) (score : Q) (count : Z)
        (duration : timedelta) (deleted timed_out : bool) :
  1 <= count ->
  (embed_maximum_escalation
     (build_embed user_id score count duration deleted timed_out) = true
   <-> calculate_timeout count = Some MAX_TIMEOUT_DURATION).
Proof.
  intros Hc. cbn [build_embed embed_maximum_escalation].
  rewrite calculate_timeout_cases, Z.leb_le.
  unfold MAX_TIMEOUT_DURATION, timedelta_hours, timedelta_minutes.
  destruct (Z.leb_spec count 0); [lia |].
  destruct (Z.eqb_spec count 1); [split; [lia | discriminate] |].
  destruct (Z.eqb_spec count 2); [split; [lia | discriminate] |].
  destruct (Z.eqb_spec count 3); [split; [lia | discriminate] |].
  split; [reflexivity | lia].
Qed.

Lemma maximum_escalation_marker_witness :
  embed_maximum_escalation (build_embed 7 0.8 4 (timedelta_hours 6) true true) = true
  /\ calculate_timeout 4 = Some MAX_TIMEOUT_DURATION.
Proof.
  split; [reflexivity |].
  apply (maximum_escalation_marker 7 0.8 4 (timedelta_hours 6) true true);
    [lia | reflexivity].
Defined.

End EscalationExtras.

(** ** The ledger: enablement, frames and an invariant *)

Section LedgerExtras.
Import ModerationData.

Lemma is_enabled_value g d :
  (is_enabled g d).2 = default false (servers_of d !! str g).
Proof. reflexivity. Qed.

Lemma set_enabled_is_enabled_value g v d :
  (is_enabled g (set_enabled g v d)).2 = v.
Proof. rewrite is_enabled_value. cbn. by rewrite lookup_insert_eq. Qed.

Lemma set_enabled_other_value g g' v d :
  g' <> g -> (is_enabled g' (set_enabled g v d)).2 = (is_enabled g' d).2.
Proof.
  intros Hne. rewrite !is_enabled_value. cbn.
  rewrite lookup_insert_ne; [reflexivity |].
  intros E. apply str_inj in E. congruence.
Qed.

(** X5: [set_enabled] then [is_enabled] reads the flag back; the other
    communities keep their flag; the last [set_enabled] wins; a community
    never mentioned is disabled. *)
Theorem set_enabled_is_enabled (g g' : Z) (v v' : bool) (d : Data) :
  (is_enabled g (set_enabled g v d)).2 = v
  /\ (g' <> g -> (is_enabled g' (set_enabled g v d)).2 = (is_enabled g' d).2)
  /\ set_enabled g v (set_enabled g v' d) = set_enabled g v d
  /\ (is_enabled g init).2 = false.
Proof.
  split.
  { rewrite is_enabled_value. cbn. by rewrite lookup_insert_eq. }
  split.
  { intros Hne. rewrite !is_enabled_value. cbn.
    rewrite lookup_insert_ne; [reflexivity |].
    intros E. apply str_inj in E. congruence. }
  split.
  { unfold set_enabled, set_enabled_servers, servers_of. cbn.
    by rewrite insert_insert_eq. }
  rewrite is_enabled_value. cbn. by rewrite lookup_empty.
Qed.

Lemma set_enabled_is_enabled_witness :
  (is_enabled 9 (set_enabled 5 true (set_enabled 9 true init))).2 = true.
Proof.
  destruct (set_enabled_is_enabled 5 9 true true (set_enabled 9 true init))
    as (_ & Hother & _).
  rewrite Hother; [reflexivity | discriminate].
Defined.

Lemma reset_warnings_servers a b d g :
  (is_enabled g (reset_warnings a b d)).2 = (is_enabled g d).2.
Proof.
  rewrite !is_enabled_value. f_equal. f_equal.
  unfold reset_warnings.
  destruct (user_warnings d) as [w |]; [| reflexivity].
  destruct (truthy a && truthy b).
  - destruct (w !! _) as [server |]; [| reflexivity].
    by destruct (server !! _).
  - destruct (truthy a); [| reflexivity].
    by destruct (w !! _).
Qed.

Lemma reset_warnings_log a b d :
  moderation_log (reset_warnings a b d) = moderation_log d.
Proof.
  unfold reset_warnings.
  destruct (user_warnings d) as [w |]; [| reflexivity].
  destruct (truthy a && truthy b).
  - destruct (w !! _) as [server |]; [| reflexivity].
    by destruct (server !! _).
  - destruct (truthy a); [| reflexivity].
    by destruct (w !! _).
Qed.

(** X6: The sections of the ledger do not interfere: switching a community
    on or off changes no warning count; counting or resetting warnings
    changes no enablement flag; and none of the operations writes the
    audit sequence. *)
Theorem ledger_sections_independent
        (g u g' : Z) (v : bool) (a b : option Z) (d : Data) :
  warning_count g u (set_enabled g' v d) = warning_count g u d
  /\ (is_enabled g' (increment_warning g u d).1).2 = (is_enabled g' d).2
  /\ (is_enabled g' (reset_warnings a b d)).2 = (is_enabled g' d).2
  /\ (is_enabled g' (get_user_warnings g u d).1).2 = (is_enabled g' d).2
  /\ moderation_log (set_enabled g' v d) = moderation_log d
  /\ moderation_log (increment_warning g u d).1 = moderation_log d
  /\ moderation_log (reset_warnings a b d) = moderation_log d.
Proof.
  split; [reflexivity |]. split; [reflexivity |].
  split; [apply reset_warnings_servers |].
  split; [reflexivity |]. split; [reflexivity |]. split; [reflexivity |].
  apply reset_warnings_log.
Qed.

Lemma stored_count_increment_other g u g' u' d :
  (g', u') <> (g, u) ->
  stored_count g' u' (increment_warning g u d).1 = stored_count g' u' d.
Proof.
  intros Hne. unfold stored_count. rewrite increment_warning_warnings.
  destruct (decide (g' = g)) as [-> | Hg].
  - rewrite lookup_insert_eq.
    rewrite lookup_insert_ne by (intros E; apply str_inj in E; congruence).
    destruct (warnings_of d !! str g); [reflexivity |].
    cbn. apply lookup_empty.
  - rewrite lookup_insert_ne by (intros E; apply str_inj in E; congruence).
    reflexivity.
Qed.

(** X7: [increment_warning] writes the entry of its own (community, member)
    pair and no other, and reading a count with [get_user_warnings]
    changes none. *)
Theorem increment_warning_touches_one_entry (g u g' u' : Z) (d : Data) :
  (g', u') <> (g, u) ->
  stored_count g' u' (increment_warning g u d).1 = stored_count g' u' d
  /\ warning_count g' u' (increment_warning g u d).1 = warning_count g' u' d
  /\ stored_count g' u' (get_user_warnings g u d).1 = stored_count g' u' d
  /\ stored_count g u (get_user_warnings g u d).1 = stored_count g u d.
Proof.
  intros Hne.
  split; [by apply stored_count_increment_other |].
  split; [| by split].
  by rewrite !warning_count_stored, stored_count_increment_other.
Qed.

Lemma increment_warning_touches_one_entry_witness :
  stored_count 9 8 (increment_warning 5 7 two_communities).1 = Some 1
  /\ stored_count 5 7 (increment_warning 5 7 two_communities).1 = Some 3.
Proof.
  split; [| reflexivity].
  destruct (increment_warning_touches_one_entry 5 7 9 8 two_communities)
    as (Hother & _); [discriminate |].
  rewrite Hother. reflexivity.
Defined.

Lemma stored_count_reset_member_other g u g' u' d :
  g <> 0 -> u <> 0 -> (g', u') <> (g, u) ->
  stored_count g' u' (reset_warnings (Some g) (Some u) d) = stored_count g' u' d.
Proof.
  intros Hg Hu Hne. unfold reset_warnings.
  destruct (user_warnings d) as [w |] eqn:Hw.
  - assert (Hof : warnings_of d = w) by (unfold warnings_of; by rewrite Hw).
    rewrite !truthy_some.
    destruct (Z.eqb_spec g 0); [done |]. destruct (Z.eqb_spec u 0); [done |].
    cbn [negb andb default from_option id].
    destruct (w !! str g) as [server |] eqn:Hsg; [| reflexivity].
    destruct (server !! str u) as [c |] eqn:Hsu; [| reflexivity].
    unfold stored_count. rewrite warnings_of_set, Hof.
    destruct (decide (g' = g)) as [-> | Hg'].
    + rewrite lookup_insert_eq, Hsg.
      apply lookup_delete_ne. intros E. apply str_inj in E. congruence.
    + rewrite lookup_insert_ne by (intros E; apply str_inj in E; congruence).
      reflexivity.
  - unfold stored_count, warnings_of. rewrite Hw. cbn.
    by rewrite lookup_empty.
Qed.

(** X8: With ids other than 0, the member mode of [reset_warnings] removes
    the entry of that member and leaves every other entry, in the same
    community and in the others, as it was. A member id of 0 is falsy:
    the call then resets the whole community. *)
Theorem reset_warnings_member_only (g u g' u' : Z) (d : Data) :
  g <> 0 -> u <> 0 ->
  stored_count g u (reset_warnings (Some g) (Some u) d) = None
  /\ ((g', u') <> (g, u) ->
      stored_count g' u' (reset_warnings (Some g) (Some u) d)
      = stored_count g' u' d)
  /\ reset_warnings (Some g) (Some 0) d = reset_warnings (Some g) None d.
Proof.
  intros Hg Hu. split.
  { unfold reset_warnings.
    destruct (user_warnings d) as [w |] eqn:Hw.
    - assert (Hof : warnings_of d = w) by (unfold warnings_of; by rewrite Hw).
      rewrite !truthy_some.
      destruct (Z.eqb_spec g 0); [done |]. destruct (Z.eqb_spec u 0); [done |].
      cbn [negb andb default from_option id].
      destruct (w !! str g) as [server |] eqn:Hsg.
      + destruct (server !! str u) as [c |] eqn:Hsu.
        * unfold stored_count. rewrite warnings_of_set, lookup_insert_eq.
          apply lookup_delete_eq.
        * unfold stored_count. by rewrite Hof, Hsg.
      + unfold stored_count. by rewrite Hof, Hsg.
    - unfold stored_count. rewrite warnings_of_set. by rewrite lookup_empty. }
  split; [by apply stored_count_reset_member_other |].
  unfold reset_warnings. rewrite !truthy_some. cbn [Z.eqb negb].
  by rewrite !andb_false_r.
Qed.

Lemma reset_warnings_member_only_witness :
  stored_count 5 7 (reset_warnings (Some 5) (Some 7) two_communities) = None
  /\ stored_count 9 8 (reset_warnings (Some 5) (Some 7) two_communities) = Some 1.
Proof.
  destruct (reset_warnings_member_only 5 7 9 8 two_communities)
    as (Hgone & Hother & _); [discriminate | discriminate |].
  split; [exact Hgone |].
  rewrite Hother; [reflexivity | discriminate].
Defined.

Lemma stored_count_reset_inv a b g u c d :
  stored_count g u (reset_warnings a b d) = Some c -> stored_count g u d = Some c.
Proof.
  unfold reset_warnings.
  destruct (user_warnings d) as [w |] eqn:Hw.
  - assert (Hof : warnings_of d = w) by (unfold warnings_of; by rewrite Hw).
    destruct (truthy a && truthy b).
    + destruct (w !! str (default 0 a)) as [server |] eqn:Hsg; [| done].
      destruct (server !! str (default 0 b)) as [c0 |] eqn:Hsu; [| done].
      unfold stored_count. rewrite warnings_of_set, Hof.
      destruct (decide (str g = str (default 0 a))) as [E | E].
      * rewrite E, lookup_insert_eq, Hsg.
        destruct (decide (str u = str (default 0 b))) as [E' | E'].
        -- rewrite E', lookup_delete_eq. discriminate.
        -- by rewrite lookup_delete_ne.
      * by rewrite lookup_insert_ne.
    + destruct (truthy a).
      * destruct (w !! str (default 0 a)) as [server |] eqn:Hsg; [| done].
        unfold stored_count. rewrite warnings_of_set, Hof.
        destruct (decide (str g = str (default 0 a))) as [E | E].
        -- rewrite E, lookup_insert_eq, lookup_empty. discriminate.
        -- by rewrite lookup_insert_ne.
      * unfold stored_count. rewrite warnings_of_set, lookup_empty. discriminate.
  - unfold stored_count. rewrite warnings_of_set, lookup_empty. discriminate.
Qed.

(** X9: An invariant of the ledger: when every stored count is at least 1,
    it stays so after [increment_warning], [reset_warnings] (in any mode)
    and [set_enabled]; the ledger of [__init__] stores no count. So the
    count handed to the escalation policy after an increment is at
    least 1. *)
Theorem stored_counts_stay_positive (d : Data) (g0 u0 : Z) (a b : option Z)
        (v : bool) :
  (forall g u c, stored_count g u d = Some c -> 1 <= c) ->
  (forall g u c,
      stored_count g u (increment_warning g0 u0 d).1 = Some c -> 1 <= c)
  /\ (forall g u c, stored_count g u (reset_warnings a b d) = Some c -> 1 <= c)
  /\ (forall g u c, stored_count g u (set_enabled g0 v d) = Some c -> 1 <= c)
  /\ 1 <= warning_count g0 u0 (increment_warning g0 u0 d).1
  /\ (forall g u, stored_count g u init = None).
Proof.
  intros Hpos.
  assert (Hnonneg : 0 <= warning_count g0 u0 d).
  { rewrite warning_count_stored.
    destruct (stored_count g0 u0 d) as [c |] eqn:E; cbn; [| lia].
    specialize (Hpos _ _ _ E). lia. }
  split.
  { intros g u c.
    destruct (decide ((g, u) = (g0, u0))) as [[= -> ->] | Hne].
    - rewrite increment_warning_stored. intros [= <-]. lia.
    - rewrite stored_count_increment_other by done. apply Hpos. }
  split.
  { intros g u c H. apply stored_count_reset_inv in H. by eapply Hpos. }
  split; [intros g u c; apply Hpos |].
  split; [rewrite increment_warning_count; lia |].
  intros g u. unfold stored_count. cbn. by rewrite lookup_empty.
Qed.

Lemma stored_counts_stay_positive_witness :
  1 <= warning_count 5 7 (increment_warning 5 7 init).1.
Proof.
  apply (stored_counts_stay_positive init 5 7 None None true).
  intros g u c. unfold stored_count. cbn. rewrite lookup_empty. discriminate.
Defined.

End LedgerExtras.

(** ** The statistics of the status and warnings commands *)

Section StatisticsExtras.
Import ModerationData Statistics.

Lemma total_warnings_insert (m : gmap string Z) k v :
  total_warnings (<[k := v]> m) = v + total_warnings m - default 0 (m !! k).
Proof.
  unfold total_warnings.
  destruct (m !! k) as [x |] eqn:Hk; cbn.
  - rewrite <- insert_delete_eq.
    rewrite map_fold_insert_L; [| intros; lia | apply lookup_delete_eq].
    rewrite (map_fold_delete_L _ _ k x m); [lia | intros; lia | exact Hk].
  - rewrite map_fold_insert_L; [lia | intros; lia | exact Hk].
Qed.

Lemma total_warnings_delete (m : gmap string Z) k :
  total_warnings (delete k m) = total_warnings m - default 0 (m !! k).
Proof.
  unfold total_warnings.
  destruct (m !! k) as [x |] eqn:Hk; cbn.
  - rewrite (map_fold_delete_L _ _ k x m); [lia | intros; lia | exact Hk].
  - rewrite delete_id by done. lia.
Qed.

Lemma server_warnings_increment g u d :
  server_warnings g (increment_warning g u d).1
  = <[str u := warning_count g u d + 1]> (server_warnings g d).
Proof.
  change (server_warnings g ?x) with (default ∅ (warnings_of x !! str g)).
  rewrite increment_warning_warnings. by rewrite lookup_insert_eq.
Qed.

Lemma server_warnings_increment_other g u g' d :
  g' <> g ->
  server_warnings g' (increment_warning g u d).1 = server_warnings g' d.
Proof.
  intros Hne.
  change (server_warnings g' ?x) with (default ∅ (warnings_of x !! str g')).
  rewrite increment_warning_warnings.
  rewrite lookup_insert_ne; [reflexivity |].
  intros E. apply str_inj in E. congruence.
Qed.

(** X10: After [increment_warning] the status of the community shows one more
    warning in total, and one more warned user exactly when the member
    had no entry; the statistics of the other communities do not move. *)
Theorem statistics_after_increment (g u g' : Z) (d : Data) :
  total_warnings (server_warnings g (increment_warning g u d).1)
  = total_warnings (server_warnings g d) + 1
  /\ unique_users (server_warnings g (increment_warning g u d).1)
     = match stored_count g u d with
       | Some _ => unique_users (server_warnings g d)
       | None => S (unique_users (server_warnings g d))
       end
  /\ (g' <> g ->
      server_warnings g' (increment_warning g u d).1 = server_warnings g' d).
Proof.
  assert (Hstored : stored_count g u d = server_warnings g d !! str u).
  { unfold stored_count.
    change (server_warnings g d) with (default ∅ (warnings_of d !! str g)).
    destruct (warnings_of d !! str g); [reflexivity |].
    cbn. by rewrite lookup_empty. }
  split.
  { rewrite server_warnings_increment, total_warnings_insert.
    rewrite warning_count_stored, Hstored. lia. }
  split; [| apply server_warnings_increment_other].
  rewrite server_warnings_increment, Hstored. unfold unique_users.
  rewrite map_size_insert. by destruct (server_warnings g d !! str u).
Qed.

Lemma statistics_after_increment_witness :
  server_warnings 9 (increment_warning 5 7 two_communities).1
  = server_warnings 9 two_communities
  /\ total_warnings (server_warnings 5 (increment_warning 5 7 two_communities).1) = 3.
Proof.
  destruct (statistics_after_increment 5 7 9 two_communities)
    as (Htotal & _ & Hother).
  split; [apply Hother; discriminate |].
  rewrite Htotal. reflexivity.
Defined.

Lemma server_warnings_reset_member g u d :
  g <> 0 -> u <> 0 ->
  server_warnings g (reset_warnings (Some g) (Some u) d)
  = delete (str u) (server_warnings g d).
Proof.
  intros Hg Hu.
  change (server_warnings g ?x) with (default ∅ (warnings_of x !! str g)).
  unfold reset_warnings.
  destruct (user_warnings d) as [w |] eqn:Hw.
  - assert (Hof : warnings_of d = w) by (unfold warnings_of; by rewrite Hw).
    rewrite !truthy_some.
    destruct (Z.eqb_spec g 0); [done |]. destruct (Z.eqb_spec u 0); [done |].
    cbn [negb andb default from_option id].
    destruct (w !! str g) as [server |] eqn:Hsg.
    + destruct (server !! str u) as [c |] eqn:Hsu.
      * rewrite warnings_of_set, lookup_insert_eq, Hof, Hsg. reflexivity.
      * rewrite Hof, Hsg. cbn. by rewrite delete_id.
    + rewrite Hof, Hsg. cbn. by rewrite delete_empty.
  - rewrite warnings_of_set. unfold warnings_of. rewrite Hw. cbn.
    rewrite lookup_empty. cbn. by rewrite delete_empty.
Qed.

(** X11: Resetting one member (ids other than 0) takes that member's count
    off the community's total; resetting the community, or everything,
    leaves it with no warned user and a total of 0. *)
Theorem statistics_after_reset (g u : Z) (d : Data) :
  g <> 0 ->
  (u <> 0 ->
   total_warnings (server_warnings g (reset_warnings (Some g) (Some u) d))
   = total_warnings (server_warnings g d) - warning_count g u d)
  /\ server_warnings g (reset_warnings (Some g) None d) = ∅
  /\ server_warnings g (reset_warnings None None d) = ∅
  /\ total_warnings ∅ = 0
  /\ unique_users ∅ = 0%nat.
Proof.
  intros Hg.
  split.
  { intros Hu. rewrite server_warnings_reset_member by done.
    by rewrite total_warnings_delete. }
  assert (Hsw : forall x, server_warnings g x = default ∅ (warnings_of x !! str g))
    by reflexivity.
  split.
  { rewrite Hsw. unfold reset_warnings.
    destruct (user_warnings d) as [w |] eqn:Hw.
    - assert (Hof : warnings_of d = w) by (unfold warnings_of; by rewrite Hw).
      rewrite andb_false_r, truthy_some.
      destruct (Z.eqb_spec g 0); [done |].
      cbn [negb default from_option id].
      destruct (w !! str g) as [server |] eqn:Hsg.
      + by rewrite warnings_of_set, lookup_insert_eq.
      + by rewrite Hof, Hsg.
    - by rewrite warnings_of_set, lookup_empty. }
  split.
  { rewrite Hsw. unfold reset_warnings. cbn [truthy andb].
    destruct (user_warnings d); by rewrite warnings_of_set, lookup_empty. }
  split; [reflexivity |]. apply map_size_empty.
Qed.

Lemma statistics_after_reset_witness :
  total_warnings (server_warnings 5 two_communities) = 2
  /\ total_warnings
       (server_warnings 5 (reset_warnings (Some 5) (Some 7) two_communities)) = 0.
Proof.
  split; [reflexivity |].
  destruct (statistics_after_reset 5 7 two_communities) as (Hmember & _);
    [discriminate |].
  rewrite Hmember; [reflexivity | discriminate].
Defined.

Lemma insert_by_count_perm x l : insert_by_count x l ≡ₚ x :: l.
Proof.
  induction l as [| y rest IH]; [reflexivity |].
  cbn [insert_by_count]. destruct (y.2 <=? x.2); [reflexivity |].
  rewrite IH. apply Permutation_swap.
Qed.

Lemma sort_by_count_perm l : sort_by_count l ≡ₚ l.
Proof.
  induction l as [| x l IH]; [reflexivity |].
  cbn [sort_by_count foldr]. rewrite insert_by_count_perm.
  by apply Permutation_cons.
Qed.

Lemma insert_by_count_sorted x l :
  StronglySorted by_count l -> StronglySorted by_count (insert_by_count x l).
Proof.
  induction l as [| y rest IH]; intros Hl.
  - repeat constructor.
  - apply StronglySorted_cons in Hl as [Hy Hrest].
    cbn [insert_by_count]. destruct (Z.leb_spec y.2 x.2) as [Hle | Hlt].
    + apply StronglySorted_cons. split.
      * constructor; [exact Hle |].
        eapply Forall_impl; [exact Hy |]. unfold by_count. intros z Hz. lia.
      * by apply StronglySorted_cons.
    + apply StronglySorted_cons. split; [| by apply IH].
      rewrite insert_by_count_perm. constructor; [| exact Hy].
      unfold by_count. lia.
Qed.

Lemma sort_by_count_sorted l : StronglySorted by_count (sort_by_count l).
Proof.
  induction l as [| x l IH]; [constructor |].
  cbn [sort_by_count foldr]. by apply insert_by_count_sorted.
Qed.

Lemma sort_by_count_fixes_sorted l :
  StronglySorted by_count l -> sort_by_count l = l.
Proof.
  induction l as [| x l IH]; intros Hl; [reflexivity |].
  apply StronglySorted_cons in Hl as [Hx Hl].
  cbn [sort_by_count foldr]. fold (sort_by_count l). rewrite IH by done.
  destruct l as [| y rest]; [reflexivity |].
  cbn [insert_by_count]. apply Forall_cons in Hx as [Hy _].
  unfold by_count in Hy. by destruct (Z.leb_spec y.2 x.2); [| lia].
Qed.

End StatisticsExtras.

Section LeaderboardExtras.
Import Statistics.

(** X12: The leaderboard [sorted(...)[:10]] has at most ten rows, in order of
    decreasing count; together with the rows it leaves out it is a
    rearrangement of the items; no row left out has more warnings than a
    row shown; and items that already come in decreasing order keep
    their order, ties included. *)
Theorem sorted_warnings_top_ten (items : list (string * Z)) :
  length (sorted_warnings items) = Nat.min 10 (length items)
  /\ StronglySorted by_count (sorted_warnings items)
  /\ sorted_warnings items ++ drop 10 (sort_by_count items) ≡ₚ items
  /\ (forall x y, x ∈ sorted_warnings items ->
                  y ∈ drop 10 (sort_by_count items) -> y.2 <= x.2)
  /\ (StronglySorted by_count items -> sorted_warnings items = take 10 items).
Proof.
  unfold sorted_warnings.
  pose proof (sort_by_count_sorted items) as Hsorted.
  rewrite <- (take_drop 10 (sort_by_count items)) in Hsorted.
  apply StronglySorted_app in Hsorted as (Hcross & Htake & _).
  split.
  { by rewrite length_take, (Permutation_length (sort_by_count_perm items)). }
  split; [exact Htake |].
  split; [by rewrite take_drop, sort_by_count_perm |].
  split; [intros x y Hx Hy; by apply (Hcross x y) |].
  intros Hitems. by rewrite sort_by_count_fixes_sorted.
Qed.

Lemma sorted_warnings_top_ten_witness :
  sorted_warnings [("a", 3); ("b", 3); ("c", 1)]%string
  = [("a", 3); ("b", 3); ("c", 1)]%string.
Proof.
  apply (sorted_warnings_top_ten [("a", 3); ("b", 3); ("c", 1)]%string).
  repeat constructor; unfold by_count; cbn; lia.
Defined.

End LeaderboardExtras.

(** ** The store across writes and restarts *)

Section StoreExtras.
Import ModerationData Store Pipeline Lifecycle.

(** X14: Stopping and starting again: what [close] writes, when the write
    goes through, is exactly what the next [setup_hook] loads, section
    by section, and loading leaves the file as it is. *)
Theorem close_then_setup_hook (w : write_result) (b : bot) :
  is_Some (enabled_servers (data b)) -> is_Some (user_warnings (data b)) ->
  setup_hook true w (file (close WriteOk b))
  = (to_dict (data b), Some (Doc (JObj (to_dict (data b)))),
     [mkLog INFO "Bot is starting up...";
      mkLog INFO "Moderation data loaded successfully"]).
Proof.
  intros [e He] [u Hu]. unfold close, setup_hook.
  rewrite file_save. cbn [save_data fst].
  unfold load_data, to_dict. rewrite He, Hu. reflexivity.
Qed.

Lemma close_then_setup_hook_witness :
  (setup_hook true OpenFails (file (close WriteOk Scenario.warned_bot))).1.1
  = to_dict (data Scenario.warned_bot).
Proof.
  rewrite (close_then_setup_hook OpenFails Scenario.warned_bot);
    [reflexivity | by eexists | by eexists].
Defined.

(** X15: [load_data] keeps the three sections it knows and nothing else: any
    other top-level key of the file is dropped, so the next save no
    longer has it. *)
Theorem load_data_drops_unknown_sections (read_ok : bool) (w : write_result)
        (file : option file_content) :
  fst <$> (load_data read_ok w default_dict file).1.1
  = ["enabled_servers"; "user_warnings"; "moderation_log"]%string.
Proof.
  unfold load_data.
  destruct file as [[| j] |]; [| | by destruct w].
  - destruct read_ok; by destruct w.
  - destruct j, read_ok; by destruct w.
Qed.

(** X16: Loading is stable: with a readable, writable file system, loading a
    second time returns the snapshot of the first load and leaves the
    file that the first load left, whatever the file was at the start
    (absent, corrupt or valid). *)
Theorem load_data_twice (file : option file_content) :
  (load_data true WriteOk default_dict
     (load_data true WriteOk default_dict file).1.2).1.1
  = (load_data true WriteOk default_dict file).1.1
  /\ (load_data true WriteOk default_dict
        (load_data true WriteOk default_dict file).1.2).1.2
     = (load_data true WriteOk default_dict file).1.2
  /\ (file <> None ->
      (load_data true WriteOk default_dict
         (load_data true WriteOk default_dict file).1.2).2
      = [mkLog INFO "Moderation data loaded successfully"]).
Proof.
  destruct file as [[| j] |]; [by repeat split | | by repeat split].
  destruct j; by repeat split.
Qed.

Lemma load_data_twice_witness :
  (load_data true WriteOk default_dict
     (load_data true WriteOk default_dict (Some Garbage)).1.2).2
  = [mkLog INFO "Moderation data loaded successfully"].
Proof. apply (load_data_twice (Some Garbage)). discriminate. Defined.

End StoreExtras.

(** ** The command surface *)

Section CommandExtras.
Import EscalationSystem Store Pipeline Statistics Commands.

Lemma calculate_timeout_some (c : Z) : is_Some (calculate_timeout c).
Proof. rewrite calculate_timeout_cases. by eexists. Qed.

Lemma leaderboard_rows_some fetch_user (items : list (string * Z)) :
  is_Some (mapM (leaderboard_row fetch_user) items).
Proof.
  apply mapM_is_Some, Forall_forall. intros item _.
  unfold leaderboard_row, compose.
  destruct (calculate_timeout_some item.2) as [t ->]. by eexists.
Qed.

(** X17: The commands that write to the ledger are gated: outside a guild,
    or for an author who is not an administrator, [enable], [disable]
    and [reset] leave the bot exactly as it was (ledger, file and trace)
    and only answer with the refusal. *)
Theorem mutating_commands_are_gated
        (reply_ok : bool) (w : write_result)
        (fetch_user : string -> option string)
        (items : gmap string Z -> list (string * Z))
        (c : command) (x : context) (b : bot) :
  mutating c = true ->
  ctx_guild x = None \/ ctx_admin x = false ->
  invoke reply_ok w fetch_user items c x b
  = (b, [(match ctx_guild x with None => ServerOnly | Some _ => AccessDenied end,
          reply_ok)], sent reply_ok).
Proof.
  intros Hc Hgate.
  destruct c; try discriminate Hc; cbn [invoke];
    unfold enable_moderation, disable_moderation, reset_warnings;
    destruct (ctx_guild x) as [g |]; try reflexivity;
    destruct Hgate as [Hg | Ha]; try discriminate Hg; by rewrite Ha.
Qed.

Lemma mutating_commands_are_gated_witness :
  invoke true WriteOk nobody map_to_list (CmdReset None) member_of_5
    Scenario.warned_bot
  = (Scenario.warned_bot, [(AccessDenied, true)], Returns).
Proof.
  apply (mutating_commands_are_gated true WriteOk nobody map_to_list (CmdReset None)
           member_of_5 Scenario.warned_bot); [reflexivity | by right].
Defined.

(** X18: The other commands ([mod], [status], [warnings], [help]) only read:
    for any author, administrator or not, they change no warning count,
    no enablement flag, not the audit sequence, not the file and not the
    trace, and they end with an exception only when [ctx.send] raises. *)
Theorem reading_commands_change_nothing
        (reply_ok : bool) (w : write_result)
        (fetch_user : string -> option string)
        (items : gmap string Z -> list (string * Z))
        (c : command) (x : context) (b : bot) :
  mutating c = false ->
  (invoke reply_ok w fetch_user items c x b).2 = sent reply_ok
  /\ file (invoke reply_ok w fetch_user items c x b).1.1 = file b
  /\ trace (invoke reply_ok w fetch_user items c x b).1.1 = trace b
  /\ ModerationData.moderation_log (data (invoke reply_ok w fetch_user items c x b).1.1)
     = ModerationData.moderation_log (data b)
  /\ (forall g u,
        ModerationData.stored_count g u (data (invoke reply_ok w fetch_user items c x b).1.1)
        = ModerationData.stored_count g u (data b))
  /\ (forall g,
        (ModerationData.is_enabled g (data (invoke reply_ok w fetch_user items c x b).1.1)).2
        = (ModerationData.is_enabled g (data b)).2).
Proof.
  intros Hc. destruct c; try discriminate Hc; cbn [invoke].
  - unfold moderation_group.
    destruct (ctx_guild x); [| by repeat split].
    destruct (negb (ctx_admin x)); by repeat split.
  - unfold moderation_status. destruct (ctx_guild x); by repeat split.
  - unfold check_warnings. destruct (ctx_guild x) as [g |]; [| by repeat split].
    destruct user as [user_id |].
    + cbn [ModerationData.get_user_warnings].
      destruct (0 <? _); [| by repeat split].
      destruct (calculate_timeout_some
                  (ModerationData.warning_count g user_id (data b) + 1))
        as [t ->].
      by repeat split.
    + destruct (bool_decide _); [by repeat split |].
      destruct (leaderboard_rows_some fetch_user
                  (sorted_warnings (items (server_warnings g (data b)))))
        as [rows ->].
      by repeat split.
  - by repeat split.
Qed.

Lemma reading_commands_change_nothing_witness :
  (invoke true WriteOk nobody map_to_list (CmdWarnings None) member_of_5
     Scenario.warned_bot).2
  = Returns.
Proof.
  apply (reading_commands_change_nothing true WriteOk nobody map_to_list
           (CmdWarnings None)
           member_of_5 Scenario.warned_bot). reflexivity.
Defined.

(** X19: An administrator's [enable] or [disable] sets the flag of the guild
    and saves, whether or not the confirmation can be sent afterwards;
    neither of them changes a warning count or the flag of another
    guild. *)
Theorem switch_moderation_by_admin
        (reply_ok : bool) (w : write_result) (x : context) (b : bot)
        (g g' u' : Z) :
  ctx_guild x = Some g -> ctx_admin x = true ->
  (ModerationData.is_enabled g (data (enable_moderation reply_ok w x b).1.1)).2 = true
  /\ (ModerationData.is_enabled g (data (disable_moderation reply_ok w x b).1.1)).2
     = false
  /\ file (enable_moderation reply_ok w x b).1.1
     = (save_data w (to_dict (ModerationData.set_enabled g true (data b)))
          (file b)).1.1
  /\ file (disable_moderation reply_ok w x b).1.1
     = (save_data w (to_dict (ModerationData.set_enabled g false (data b)))
          (file b)).1.1
  /\ ModerationData.stored_count g' u' (data (enable_moderation reply_ok w x b).1.1)
     = ModerationData.stored_count g' u' (data b)
  /\ ModerationData.stored_count g' u' (data (disable_moderation reply_ok w x b).1.1)
     = ModerationData.stored_count g' u' (data b)
  /\ (g' <> g ->
      (ModerationData.is_enabled g'
         (data (disable_moderation reply_ok w x b).1.1)).2
      = (ModerationData.is_enabled g' (data b)).2)
  /\ (g' <> g ->
      (ModerationData.is_enabled g'
         (data (enable_moderation reply_ok w x b).1.1)).2
      = (ModerationData.is_enabled g' (data b)).2).
Proof.
  intros Hg Ha. unfold enable_moderation, disable_moderation.
  rewrite Hg, Ha. cbn [negb].
  destruct reply_ok; cbn [fst]; rewrite ?data_emit, !data_save;
    cbn [data with_data emit file];
    rewrite ?file_save; cbn [data with_data file];
    (split; [apply set_enabled_is_enabled_value |]);
    (split; [apply set_enabled_is_enabled_value |]);
    (split; [reflexivity |]); (split; [reflexivity |]);
    (split; [reflexivity |]); (split; [reflexivity |]);
    (split; [apply set_enabled_other_value |]);
    apply set_enabled_other_value.
Qed.

End CommandExtras.

Section CommandExtras2.
Import EscalationSystem Store Pipeline Statistics Commands.

Lemma switch_moderation_by_admin_witness :
  (ModerationData.is_enabled 5
     (data (disable_moderation false OpenFails admin_of_5 Scenario.enabled_bot).1.1)).2
  = false
  /\ (ModerationData.is_enabled 9
        (data (enable_moderation true WriteOk admin_of_5
                 (mkBot (ModerationData.set_enabled 9 true ModerationData.init)
                        None [])).1.1)).2
     = true
  /\ (ModerationData.is_enabled 9
        (data (disable_moderation true WriteOk admin_of_5
                 (mkBot (ModerationData.set_enabled 9 true ModerationData.init)
                        None [])).1.1)).2
     = true.
Proof.
  split.
  - apply (switch_moderation_by_admin false OpenFails admin_of_5
             Scenario.enabled_bot 5 5 7); reflexivity.
  - destruct (switch_moderation_by_admin true WriteOk admin_of_5
                (mkBot (ModerationData.set_enabled 9 true ModerationData.init)
                       None []) 5 9 7 eq_refl eq_refl)
      as (_ & _ & _ & _ & _ & _ & Hdisable & Henable).
    split.
    + rewrite Henable; [reflexivity | discriminate].
    + rewrite Hdisable; [reflexivity | discriminate].
Defined.

(** X20: An administrator's [reset] clears the member, or the whole guild when
    no member is named, in memory at once; the confirmation is sent next
    and the file is written last, so when [ctx.send] raises the reset is
    not saved by this command. *)
Theorem reset_command_saves_after_reply
        (reply_ok : bool) (w : write_result) (x : context)
        (user : option Z) (b : bot) (g : Z) :
  ctx_guild x = Some g -> ctx_admin x = true ->
  data (reset_warnings reply_ok w x user b).1.1
  = ModerationData.reset_warnings (Some g) user (data b)
  /\ file (reset_warnings reply_ok w x user b).1.1
     = (if reply_ok
        then (save_data w
                (to_dict (ModerationData.reset_warnings (Some g) user (data b)))
                (file b)).1.1
        else file b)
  /\ (reset_warnings reply_ok w x user b).2 = sent reply_ok.
Proof.
  intros Hg Ha. unfold reset_warnings. rewrite Hg, Ha. cbn [negb].
  destruct user as [u |], reply_ok; cbn [fst snd sent];
    rewrite ?data_save, ?file_save; by repeat split.
Qed.

Lemma reset_command_saves_after_reply_witness :
  ModerationData.warning_count 5 7
    (data (reset_warnings false WriteOk admin_of_5 (Some 7) Scenario.warned_bot).1.1)
  = 0
  /\ file (reset_warnings false WriteOk admin_of_5 (Some 7) Scenario.warned_bot).1.1
     = None.
Proof.
  destruct (reset_command_saves_after_reply false WriteOk admin_of_5 (Some 7)
              Scenario.warned_bot 5 eq_refl eq_refl) as (Hdata & Hfile & _).
  rewrite Hdata, Hfile. split; reflexivity.
Defined.

End CommandExtras2.

(** ** The pipeline: guards, frame and escalation over time *)

Section PipelineExtras.
Import EscalationSystem ModerationData Store Pipeline Lifecycle.

Lemma on_message_not_enabled e m b g :
  guild m = Some g ->
  (is_enabled g (data (process_commands e m b))).2 = false ->
  on_message e m b
  = (if author_bot m then process_commands e m b
     else with_data (is_enabled g (data (process_commands e m b))).1
                    (process_commands e m b), Returns).
Proof.
  intros Hg Hen. unfold on_message. rewrite Hg.
  destruct (author_bot m); [reflexivity |].
  cbn [is_enabled fst snd] in *. by rewrite Hen.
Qed.

(** X21: The guards of [on_message]: a message from a bot account, a message
    outside any guild, and a message in a guild where moderation is not
    enabled are never scanned; after the command dispatch nothing is
    classified, no count moves and the file is not written. *)
Theorem on_message_guards (e : env) (m : message) (b : bot) :
  (author_bot m = true \/ guild m = None ->
   on_message e m b = (process_commands e m b, Returns))
  /\ (forall g,
        guild m = Some g ->
        (is_enabled g (data (process_commands e m b))).2 = false ->
        (on_message e m b).2 = Returns
        /\ trace (on_message e m b).1 = trace (process_commands e m b)
        /\ file (on_message e m b).1 = file (process_commands e m b)
        /\ moderation_log (data (on_message e m b).1)
           = moderation_log (data (process_commands e m b))
        /\ (forall g' u',
              stored_count g' u' (data (on_message e m b).1)
              = stored_count g' u' (data (process_commands e m b)))).
Proof.
  split.
  - intros [Hbot | Hdm]; unfold on_message.
    + by rewrite Hbot.
    + rewrite Hdm. by destruct (author_bot m).
  - intros g Hg Hen. rewrite (on_message_not_enabled e m b g Hg Hen).
    destruct (author_bot m); by repeat split.
Qed.

Lemma on_message_guards_witness :
  trace (on_message Scenario.cooperative
           (Scenario.post [Scenario.image "nsfw"])
           (mkBot init None [])).1 = [].
Proof.
  destruct (on_message_guards Scenario.cooperative
              (Scenario.post [Scenario.image "nsfw"]) (mkBot init None []))
    as (_ & Hdisabled).
  destruct (Hdisabled 5 eq_refl eq_refl) as (_ & Htrace & _).
  exact Htrace.
Defined.

(** X22: [handle_nsfw_infraction] counts against the author and nobody else:
    the entry of every other (community, member) pair and the enablement
    flag of every community are as before. *)
Theorem handle_nsfw_infraction_frame
        (e : env) (m : message) (score : Q) (b : bot) (g g' u' : Z) :
  guild m = Some g ->
  ((g', u') <> (g, author_id m) ->
   stored_count g' u' (data (handle_nsfw_infraction e m score b).1)
   = stored_count g' u' (data b))
  /\ (is_enabled g' (data (handle_nsfw_infraction e m score b).1)).2
     = (is_enabled g' (data b)).2.
Proof.
  intros Hg.
  destruct (handle_nsfw_infraction_unfold e m score b g Hg) as (dur & _ & ->).
  cbv zeta.
  destruct (send_ok e); cbn [fst]; rewrite ?data_save, !data_emit;
    cbn [data with_data get_user_warnings fst];
    (split; [| reflexivity]); intros Hne;
    change (stored_count g' u' (set_user_warnings (warnings_of ?d) ?d))
      with (stored_count g' u' d);
    by apply stored_count_increment_other.
Qed.

Lemma handle_nsfw_infraction_frame_witness :
  stored_count 5 8
    (data (handle_nsfw_infraction Scenario.cooperative
             (Scenario.post [Scenario.image "nsfw"]) 0.8 Scenario.warned_bot).1)
  = None.
Proof.
  destruct (handle_nsfw_infraction_frame Scenario.cooperative
              (Scenario.post [Scenario.image "nsfw"]) 0.8 Scenario.warned_bot
              5 5 8 eq_refl) as (Hother & _).
  rewrite Hother; [reflexivity | discriminate].
Defined.

End PipelineExtras.

Section EscalationOverTime.
Import EscalationSystem ModerationData Store Pipeline Lifecycle Commands.

Lemma timeout_durations_app t1 t2 :
  timeout_durations (t1 ++ t2) = timeout_durations t1 ++ timeout_durations t2.
Proof. apply omap_app. Qed.

Lemma timeout_durations_logs (lines : list log_line) :
  timeout_durations (EvLog <$> lines) = [].
Proof. induction lines as [| l lines IH]; [reflexivity | exact IH]. Qed.

Lemma timeout_durations_classify e atts :
  timeout_durations (classify_events e atts) = [].
Proof.
  unfold classify_events.
  induction (filter (fun a => is_image a = true) atts) as [| a l IH];
    [reflexivity | exact IH].
Qed.

Lemma timeout_durations_enforcement e u score wc dur :
  timeout_durations (enforcement_events e u score wc dur) = [dur].
Proof.
  unfold enforcement_events. by destruct (delete_result e), (timeout_result e).
Qed.

Lemma timeout_durations_save w snapshot (lines : list log_line) :
  timeout_durations (EvSave w snapshot :: (EvLog <$> lines)) = [].
Proof. exact (timeout_durations_logs lines). Qed.

Lemma handle_nsfw_infraction_durations e m score b g :
  guild m = Some g ->
  exists dur,
    calculate_timeout (warning_count g (author_id m) (data b) + 1) = Some dur
    /\ timeout_durations (trace (handle_nsfw_infraction e m score b).1)
       = timeout_durations (trace b) ++ [dur]
    /\ warning_count g (author_id m) (data (handle_nsfw_infraction e m score b).1)
       = warning_count g (author_id m) (data b) + 1
    /\ (is_enabled g (data (handle_nsfw_infraction e m score b).1)).2
       = (is_enabled g (data b)).2.
Proof.
  intros Hg.
  destruct (handle_nsfw_infraction_unfold e m score b g Hg) as (dur & Hdur & ->).
  exists dur. split; [exact Hdur |]. cbv zeta.
  destruct (send_ok e); cbn [fst].
  - rewrite trace_save, !data_save, !data_emit, trace_emit.
    rewrite !timeout_durations_app, timeout_durations_enforcement,
      timeout_durations_save, app_nil_r.
    split; [reflexivity |].
    split; [apply increment_warning_count | reflexivity].
  - rewrite !data_emit, trace_emit.
    rewrite timeout_durations_app, timeout_durations_enforcement.
    split; [reflexivity |].
    split; [apply increment_warning_count | reflexivity].
Qed.

(** One more violation by the same author. *)
Lemma on_message_violation_step e m b g pre a post :
  author_bot m = false -> guild m = Some g ->
  process_commands e m b = b ->
  (is_enabled g (data b)).2 = true ->
  attachments m = pre ++ a :: post ->
  forallb (fun x => negb (flagged e x)) pre = true ->
  flagged e a = true ->
  exists dur,
    calculate_timeout (warning_count g (author_id m) (data b) + 1) = Some dur
    /\ timeout_durations (trace (on_message e m b).1)
       = timeout_durations (trace b) ++ [dur]
    /\ warning_count g (author_id m) (data (on_message e m b).1)
       = warning_count g (author_id m) (data b) + 1
    /\ (is_enabled g (data (on_message e m b).1)).2 = true.
Proof.
  intros Hbot Hg Hid Hen Hatts Hpre Ha.
  rewrite (on_message_scans e m b g Hbot Hg) by (by rewrite Hid).
  rewrite Hid, Hatts, scan_attachments_first_flagged by done.
  set (b2 := emit (classify_events e (pre ++ [a]))
               (with_data (is_enabled g (data b)).1 b)).
  destruct (handle_nsfw_infraction_durations e m (analyze_image e (url a)) b2 g Hg)
    as (dur & Hdur & Htrace & Hcount & Hflag).
  exists dur.
  assert (Hwc : warning_count g (author_id m) (data b2)
                = warning_count g (author_id m) (data b)) by reflexivity.
  assert (Htr : timeout_durations (trace b2) = timeout_durations (trace b)).
  { unfold b2. rewrite trace_emit, timeout_durations_app,
      timeout_durations_classify, app_nil_r. reflexivity. }
  rewrite Hwc in Hdur, Hcount. rewrite Htr in Htrace.
  split; [exact Hdur |]. split; [exact Htrace |]. split; [exact Hcount |].
  rewrite Hflag. exact Hen.
Qed.

(** X23: Escalation over time: when the same author keeps posting a message
    with a flagged image in an enabled community, the [n] runs raise the
    count by [n], and the timeouts applied are, in order, those of the
    counts that follow the initial one. *)
Theorem repeated_violations_escalate
        (n : nat) (e : env) (m : message) (b : bot) (g : Z)
        (pre : list attachment) (a : attachment) (post : list attachment) :
  author_bot m = false -> guild m = Some g ->
  (forall b', process_commands e m b' = b') ->
  (is_enabled g (data b)).2 = true ->
  attachments m = pre ++ a :: post ->
  forallb (fun x => negb (flagged e x)) pre = true ->
  flagged e a = true ->
  warning_count g (author_id m) (data (repeat_message n e m b))
  = warning_count g (author_id m) (data b) + Z.of_nat n
  /\ Some <$> timeout_durations (trace (repeat_message n e m b))
     = (Some <$> timeout_durations (trace b))
       ++ (calculate_timeout
             <$> seqZ (warning_count g (author_id m) (data b) + 1) (Z.of_nat n)).
Proof.
  intros Hbot Hg Hid Hen Hatts Hpre Ha. revert b Hen.
  induction n as [| n IH]; intros b Hen.
  - cbn [repeat_message]. split; [lia |]. cbn. by rewrite app_nil_r.
  - cbn [repeat_message].
    destruct (on_message_violation_step e m b g pre a post
                Hbot Hg (Hid b) Hen Hatts Hpre Ha)
      as (dur & Hdur & Htrace & Hcount & Hen').
    destruct (IH _ Hen') as [IHcount IHtrace].
    rewrite IHcount, IHtrace, Hcount, Htrace.
    split; [lia |].
    rewrite (seqZ_cons (warning_count g (author_id m) (data b) + 1)) by lia.
    rewrite fmap_app, <- app_assoc. cbn [fmap list_fmap app].
    rewrite Hdur.
    replace (Z.pred (Z.of_nat (S n))) with (Z.of_nat n) by lia.
    replace (Z.succ (warning_count g (author_id m) (data b) + 1))
      with (warning_count g (author_id m) (data b) + 1 + 1) by lia.
    reflexivity.
Qed.

Lemma repeated_violations_escalate_witness :
  Some <$> timeout_durations
             (trace (repeat_message 5 Scenario.forbidden
                       (Scenario.post [Scenario.image "nsfw"])
                       Scenario.enabled_bot))
  = calculate_timeout <$> seqZ 1 5.
Proof.
  destruct (repeated_violations_escalate 5 Scenario.forbidden
              (Scenario.post [Scenario.image "nsfw"]) Scenario.enabled_bot 5
              [] (Scenario.image "nsfw") [])
    as (_ & Htrace); [intros; reflexivity .. |].
  exact Htrace.
Defined.

(** X24: Switching moderation off takes effect on the next message: after an
    administrator's [disable], a message of that guild that carries no
    command is not scanned, whatever it contains; after [enable] it is
    handed to the attachment scan. *)
Theorem switch_takes_effect_on_next_message
        (reply_ok : bool) (w : write_result) (x : context) (b : bot) (g : Z)
        (e : env) (m : message) :
  ctx_guild x = Some g -> ctx_admin x = true ->
  author_bot m = false -> guild m = Some g ->
  (forall b', process_commands e m b' = b') ->
  trace (on_message e m (disable_moderation reply_ok w x b).1.1).1
  = trace (disable_moderation reply_ok w x b).1.1
  /\ (forall g' u',
        stored_count g' u'
          (data (on_message e m (disable_moderation reply_ok w x b).1.1).1)
        = stored_count g' u' (data b))
  /\ on_message e m (enable_moderation reply_ok w x b).1.1
     = scan_attachments e m (attachments m)
         (with_data
            (is_enabled g (data (enable_moderation reply_ok w x b).1.1)).1
            (enable_moderation reply_ok w x b).1.1).
Proof.
  intros Hg Ha Hbot Hgm Hid.
  assert (Hoff : (is_enabled g
                    (data (disable_moderation reply_ok w x b).1.1)).2 = false).
  { unfold disable_moderation. rewrite Hg, Ha. cbn [negb].
    destruct reply_ok; cbn [fst]; rewrite ?data_emit, data_save;
      apply set_enabled_is_enabled_value. }
  assert (Hon : (is_enabled g
                   (data (enable_moderation reply_ok w x b).1.1)).2 = true).
  { unfold enable_moderation. rewrite Hg, Ha. cbn [negb].
    destruct reply_ok; cbn [fst]; rewrite ?data_emit, data_save;
      apply set_enabled_is_enabled_value. }
  split; [| split].
  - rewrite (on_message_not_enabled e m _ g Hgm) by (by rewrite Hid).
    rewrite Hbot, Hid. reflexivity.
  - intros g' u'.
    rewrite (on_message_not_enabled e m _ g Hgm) by (by rewrite Hid).
    rewrite Hbot, Hid. cbn [fst data with_data is_enabled].
    unfold disable_moderation. rewrite Hg, Ha. cbn [negb].
    destruct reply_ok; cbn [fst]; rewrite ?data_emit, data_save; reflexivity.
  - rewrite (on_message_scans e m _ g Hbot Hgm) by (by rewrite Hid).
    by rewrite Hid.
Qed.

Lemma switch_takes_effect_on_next_message_witness :
  trace (on_message Scenario.cooperative (Scenario.post [Scenario.image "nsfw"])
           (disable_moderation true WriteOk admin_of_5 Scenario.enabled_bot).1.1).1
  = trace (disable_moderation true WriteOk admin_of_5 Scenario.enabled_bot).1.1.
Proof.
  apply (switch_takes_effect_on_next_message true WriteOk admin_of_5
           Scenario.enabled_bot 5 Scenario.cooperative
           (Scenario.post [Scenario.image "nsfw"])); reflexivity.
Defined.

End EscalationOverTime.

(** ** The count of enabled guilds that [on_ready] logs *)

Section OnReadyExtras.
Import ModerationData Statistics.

Lemma enabled_count_servers d :
  enabled_count d = size (filter (fun kv : string * bool => kv.2 = true) (servers_of d)).
Proof.
  unfold enabled_count, servers_of.
  destruct (enabled_servers d); [reflexivity |].
  cbn. by rewrite map_filter_empty, map_size_empty.
Qed.

Lemma enabled_lookup (e : gmap string bool) k :
  filter (fun kv : string * bool => kv.2 = true) e !! k
  = if default false (e !! k) then Some true else None.
Proof.
  destruct (e !! k) as [[|] |] eqn:Hk; cbn.
  - by apply map_lookup_filter_Some.
  - apply map_lookup_filter_None. right. intros x Hx.
    rewrite Hk in Hx. injection Hx as <-. cbn. discriminate.
  - apply map_lookup_filter_None. by left.
Qed.

(** X25: The count that [on_ready] logs follows the switches: enabling a
    guild that was not enabled adds one, disabling an enabled guild takes
    one off (its entry stays in the map, with [False], and is not
    counted), and repeating a switch changes nothing. *)
Theorem enabled_count_after_switch (g : Z) (d : Data) :
  enabled_count (set_enabled g true d)
  = (if (is_enabled g d).2 then enabled_count d else S (enabled_count d))
  /\ enabled_count (set_enabled g false d)
     = (if (is_enabled g d).2 then Nat.pred (enabled_count d) else enabled_count d)
  /\ enabled_count init = 0%nat.
Proof.
  rewrite !enabled_count_servers, is_enabled_value.
  change (servers_of (set_enabled g ?v d)) with (<[str g := v]> (servers_of d)).
  split; [| split].
  - rewrite map_filter_insert_True by done.
    rewrite map_size_insert, enabled_lookup.
    by destruct (default false (servers_of d !! str g)).
  - rewrite map_filter_insert_False by (cbn; discriminate).
    rewrite map_filter_delete, map_size_delete, enabled_lookup.
    by destruct (default false (servers_of d !! str g)).
  - cbn. by rewrite map_filter_empty, map_size_empty.
Qed.

End OnReadyExtras.

(** ** The leaderboard that [warnings] answers with *)

Section LeaderboardReply.
Import EscalationSystem Store Pipeline Statistics Commands.

Lemma leaderboard_rows_spec fetch_user (items : list (string * Z))
      (rows : list (string * Z * string)) :
  mapM (leaderboard_row fetch_user) items = Some rows ->
  length rows = length items
  /\ (fun r : string * Z * string => r.1.2) <$> rows = snd <$> items
  /\ Forall (fun r : string * Z * string =>
               format_duration <$> calculate_timeout r.1.2 = Some r.2) rows.
Proof.
  intros H. apply mapM_Some_1 in H.
  induction H as [| item row items rows Hrow _ IH]; [by repeat split |].
  destruct IH as (Hlen & Hcounts & Htexts).
  unfold leaderboard_row in Hrow.
  destruct (calculate_timeout item.2) as [t |] eqn:Ht; [| discriminate].
  injection Hrow as <-. cbn [fst snd length fmap list_fmap].
  split; [by rewrite Hlen |].
  split; [by rewrite <- Hcounts |].
  constructor; [| exact Htexts]. cbn [fst snd]. by rewrite Ht.
Qed.

(** Whatever the order in which the keys of a dictionary were inserted,
    its items in that order are a rearrangement of the items of the map. *)
Lemma items_in_order_perm (keys : list string) (sw : gmap string Z) :
  NoDup keys ->
  (forall k, k ∈ keys <-> is_Some (sw !! k)) ->
  items_in_order keys sw ≡ₚ map_to_list sw.
Proof.
  revert sw. induction keys as [| k keys IH]; intros sw Hnodup Hdom.
  - assert (sw = ∅) as ->.
    { apply map_empty. intros k. apply eq_None_not_Some.
      rewrite <- Hdom. apply not_elem_of_nil. }
    by rewrite map_to_list_empty.
  - apply NoDup_cons in Hnodup as [Hk Hnodup].
    destruct (proj1 (Hdom k)) as [v Hv]; [by left |].
    unfold items_in_order. cbn [omap list_omap]. rewrite Hv. cbn [fmap option_fmap option_map].
    rewrite <- (map_to_list_delete sw k v Hv). apply Permutation_cons; [reflexivity |].
    rewrite <- (IH (delete k sw) Hnodup).
    + unfold items_in_order. clear IH Hdom Hnodup.
      assert (Heq : omap (fun k0 => pair k0 <$> sw !! k0) keys
                    = omap (fun k0 => pair k0 <$> delete k sw !! k0) keys).
      { induction keys as [| k' keys IH']; [reflexivity |].
        apply not_elem_of_cons in Hk as [Hne Hk].
        cbn [omap list_omap]. rewrite lookup_delete_ne by done.
        by rewrite (IH' Hk). }
      by rewrite Heq.
    + intros k'. rewrite lookup_delete_is_Some, <- Hdom.
      split.
      * intros Hin. split; [| by right]. intros ->. contradiction.
      * intros [Hne [-> | Hin]%elem_of_cons]; [contradiction | exact Hin].
Qed.

(** X26: [warnings] without a member: in a guild with no warned user the
    answer says so; otherwise the answer is a leaderboard of at most ten
    rows, one for each item of [sorted(items, ...)[:10]] in that order,
    with the count of the item and the rendered policy value of that
    count. This holds for every order in which the dictionary may
    enumerate its items. The bot is not touched and no permission is
    asked for. *)
Theorem check_warnings_leaderboard
        (reply_ok : bool) (fetch_user : string -> option string)
        (items : gmap string Z -> list (string * Z))
        (x : context) (b : bot) (g : Z) :
  ctx_guild x = Some g ->
  items (server_warnings g (data b)) ≡ₚ map_to_list (server_warnings g (data b)) ->
  (server_warnings g (data b) = ∅ ->
   check_warnings reply_ok fetch_user items x None b
   = (b, [(NoWarnings, reply_ok)], sent reply_ok))
  /\ (server_warnings g (data b) <> ∅ ->
      exists rows,
        check_warnings reply_ok fetch_user items x None b
        = (b, [(Leaderboard rows, reply_ok)], sent reply_ok)
        /\ length rows = Nat.min 10 (size (server_warnings g (data b)))
        /\ Forall2 (fun item row => leaderboard_row fetch_user item = Some row)
             (sorted_warnings (items (server_warnings g (data b)))) rows
        /\ (fun r : string * Z * string => r.1.2) <$> rows
           = snd <$> sorted_warnings (items (server_warnings g (data b)))
        /\ Forall (fun r : string * Z * string =>
                     format_duration <$> calculate_timeout r.1.2 = Some r.2) rows).
Proof.
  intros Hg Hitems. unfold check_warnings. rewrite Hg. split.
  - intros Hempty. by rewrite bool_decide_eq_true_2.
  - intros Hne. rewrite bool_decide_eq_false_2 by done.
    destruct (leaderboard_rows_some fetch_user
                (sorted_warnings (items (server_warnings g (data b)))))
      as [rows Hrows].
    rewrite Hrows. exists rows. split; [reflexivity |].
    destruct (leaderboard_rows_spec _ _ _ Hrows) as (Hlen & Hcounts & Htexts).
    split; [| split; [by apply mapM_Some_1 | by split]].
    rewrite Hlen. unfold sorted_warnings.
    rewrite length_take, (Permutation_length (sort_by_count_perm _)).
    by rewrite (Permutation_length Hitems), length_map_to_list.
Qed.

(** The theorem at work on a guild with two warned members. *)
Lemma check_warnings_leaderboard_witness :
  items_in_order ["8"; "7"]%string (server_warnings 5 (data tied_bot))
  ≡ₚ map_to_list (server_warnings 5 (data tied_bot))
  /\ server_warnings 5 (data tied_bot) <> ∅
  /\ exists rows,
      check_warnings true nobody (items_in_order ["8"; "7"]%string)
        member_of_5 None tied_bot
      = (tied_bot, [(Leaderboard rows, true)], Returns)
      /\ length rows = Nat.min 10 (size (server_warnings 5 (data tied_bot)))
      /\ Forall2 (fun item row => leaderboard_row nobody item = Some row)
           (sorted_warnings
              (items_in_order ["8"; "7"]%string (server_warnings 5 (data tied_bot))))
           rows
      /\ (fun r : string * Z * string => r.1.2) <$> rows
         = snd <$> sorted_warnings
                     (items_in_order ["8"; "7"]%string
                        (server_warnings 5 (data tied_bot)))
      /\ Forall (fun r : string * Z * string =>
                   format_duration <$> calculate_timeout r.1.2 = Some r.2) rows.
Proof.
  assert (Hperm : items_in_order ["8"; "7"]%string (server_warnings 5 (data tied_bot))
                  ≡ₚ map_to_list (server_warnings 5 (data tied_bot))).
  { vm_compute. first [reflexivity | apply Permutation_swap]. }
  assert (Hne : server_warnings 5 (data tied_bot) <> ∅).
  { intros H. apply (f_equal (fun m => m !! "8"%string)) in H.
    vm_compute in H. discriminate H. }
  split; [exact Hperm |]. split; [exact Hne |].
  apply (check_warnings_leaderboard true nobody (items_in_order ["8"; "7"]%string)
           member_of_5 tied_bot 5 eq_refl Hperm).
  exact Hne.
Defined.

(** Two members with the same count stay in the order in which they got
    their first warning: member 8 before member 7. *)
Lemma leaderboard_keeps_insertion_order_on_ties :
  check_warnings true nobody (items_in_order ["8"; "7"]%string)
    member_of_5 None tied_bot
  = (tied_bot,
     [(Leaderboard [("Unknown (8)", 1, "10m"); ("Unknown (7)", 1, "10m")]%string,
       true)], Returns).
Proof. by vm_compute. Qed.

End LeaderboardReply.
